(** * Data dictionary validator: the naming-convention rule engine

    A shallow embedding of [Streamlit_app.py]: the string primitives of
    Python that the engine relies on, the three column-level checks
    ([check_column_parts], [validate_abbreviation_usage],
    [validate_class_word]), the capitalisation rule
    ([capitalize_english_name]), the sample synthesiser
    ([generate_sample_data]) and the body of the per-row loop of
    [validate_data_dictionary].

    Text is modelled on the ASCII range: a Python [str] is a [string] of
    8-bit characters, and the character classes and case mappings of
    [PyStr] are the ones CPython applies to code points below 128;
    characters above 127 are left alone by them.  The capitalisation rule
    is given a second time on arbitrary code points (module [Unicode]),
    with the rows of CPython's Unicode database as a parameter: what is
    said of it for every [str] is stated there, and the ASCII model is
    shown to be its restriction to ASCII text.

    Exceptions are explicit ([result]); the random generator is a tape of
    draws; floats are kept as the expressions that produce them, and only
    the places where CPython raises on them are modelled. *)

From Stdlib Require Import ZArith Lia Ascii String.
From stdpp Require Import base option list gmap strings pretty.

Local Open Scope Z_scope.

(** ** Python string primitives *)

Module PyStr.

(** [str.isspace] on ASCII: TAB, LF, VT, FF, CR, the four separators
    FS, GS, RS, US, and the space. *)
Definition is_space (c : ascii) : bool :=
  let n := N_of_ascii c in
  ((9 <=? n) && (n <=? 13) || (28 <=? n) && (n <=? 32))%N.

Definition is_upper (c : ascii) : bool :=
  let n := N_of_ascii c in ((65 <=? n) && (n <=? 90))%N.

Definition is_lower (c : ascii) : bool :=
  let n := N_of_ascii c in ((97 <=? n) && (n <=? 122))%N.

(** The class [\d] of [re] restricted to ASCII. *)
Definition is_digit (c : ascii) : bool :=
  let n := N_of_ascii c in ((48 <=? n) && (n <=? 57))%N.

Definition to_upper (c : ascii) : ascii :=
  if is_lower c then ascii_of_N (N_of_ascii c - 32) else c.

Definition to_lower (c : ascii) : ascii :=
  if is_upper c then ascii_of_N (N_of_ascii c + 32) else c.

Fixpoint smap (f : ascii -> ascii) (s : string) : string :=
  match s with
  | EmptyString => EmptyString
  | String c r => String (f c) (smap f r)
  end.

Fixpoint sall (p : ascii -> bool) (s : string) : bool :=
  match s with
  | EmptyString => true
  | String c r => p c && sall p r
  end.

(** [s.upper()], [s.lower()], [s.capitalize()]. *)
Definition upper : string -> string := smap to_upper.
Definition lower : string -> string := smap to_lower.

Definition capitalize (s : string) : string :=
  match s with
  | EmptyString => EmptyString
  | String c r => String (to_upper c) (lower r)
  end.

(** [s.strip()]. *)
Fixpoint lstrip (s : string) : string :=
  match s with
  | EmptyString => EmptyString
  | String c r => if is_space c then lstrip r else s
  end.

Fixpoint rstrip (s : string) : string :=
  match s with
  | EmptyString => EmptyString
  | String c r =>
      match rstrip r with
      | EmptyString => if is_space c then EmptyString else String c EmptyString
      | r' => String c r'
      end
  end.

Definition strip (s : string) : string := rstrip (lstrip s).

(** [s.split()]: the maximal runs of non-whitespace characters, in order.
    [words_from s] is the pair of the run that starts at the head of [s]
    (empty when [s] starts with whitespace) and the runs after it. *)
Definition push_word (w : string) (ws : list string) : list string :=
  match w with
  | EmptyString => ws
  | _ => w :: ws
  end.

Fixpoint words_from (s : string) : string * list string :=
  match s with
  | EmptyString => (EmptyString, [])
  | String c r =>
      let '(w, ws) := words_from r in
      if is_space c then (EmptyString, push_word w ws) else (String c w, ws)
  end.

Definition split_ws (s : string) : list string :=
  let '(w, ws) := words_from s in push_word w ws.

(** [s.split(d)] for a one-character separator: never the empty list,
    [''.split('_')] is [['']]. *)
Fixpoint split_on (d : ascii) (s : string) : list string :=
  match s with
  | EmptyString => [EmptyString]
  | String c r =>
      if Ascii.eqb c d then EmptyString :: split_on d r
      else match split_on d r with
           | w :: ws => String c w :: ws
           | [] => [String c EmptyString]
           end
  end.

(** [sep.join(l)]. *)
Fixpoint join (sep : string) (l : list string) : string :=
  match l with
  | [] => EmptyString
  | [x] => x
  | x :: r => x +:+ sep +:+ join sep r
  end.

(** [s.startswith(p)], [s.endswith(p)], [p in s], [s[:n]]. *)
Definition startswith (s p : string) : bool := String.prefix p s.

Fixpoint endswith (s p : string) : bool :=
  String.eqb s p ||
  match s with
  | EmptyString => false
  | String _ r => endswith r p
  end.

Fixpoint contains (needle hay : string) : bool :=
  String.prefix needle hay ||
  match hay with
  | EmptyString => false
  | String _ r => contains needle r
  end.

Fixpoint take (n : nat) (s : string) : string :=
  match n, s with
  | S k, String c r => String c (take k r)
  | _, _ => EmptyString
  end.

(** [bool(re.match(r"^\d+$", s))].  [re.match] anchors at the start of
    [s]; [\d+] takes the leading digits; [$] succeeds at the end of the
    string and also just before a newline that is the last character. *)
Definition newline : ascii := ascii_of_N 10.

Fixpoint digits_to_end (s : string) : bool :=
  match s with
  | EmptyString => true
  | String c r =>
      if is_digit c then digits_to_end r
      else Ascii.eqb c newline && String.eqb r EmptyString
  end.

Definition match_digits (s : string) : bool :=
  match s with
  | EmptyString => false
  | String c r => is_digit c && digits_to_end r
  end.

End PyStr.

Import PyStr.

(** ** Column-level checks *)

Inductive status := PASS | FAIL.

Global Instance status_eq_dec : EqDecision status.
Proof. solve_decision. Defined.

(** The nested helper [is_number] of [check_column_parts] and of
    [validate_abbreviation_usage]. *)
Definition is_number (value : string) : bool := match_digits value.

(** [approved_terms], the same expression in [check_column_parts] and in
    [validate_abbreviation_usage]: the keys and the values of the
    abbreviations, the class words and the words of the English name. *)
Definition approved_terms (abbreviations : gmap string string)
    (english_name : string) (class_words : list string) : gset string :=
  let english_terms : gset string := list_to_set (split_ws english_name) in
  dom abbreviations ∪ map_img abbreviations
    ∪ list_to_set class_words ∪ english_terms.

(** [check_column_parts]: the parts of the column name that are neither
    approved nor numeric.  [elements] stands for the iteration order of
    the Python set, which is fixed by the way the set was built. *)
Definition check_column_parts (column_name : string)
    (abbreviations : gmap string string) (english_name : string)
    (class_words : list string) : list string :=
  let column_parts : gset string := list_to_set (split_on "_" column_name) in
  let approved := approved_terms abbreviations english_name class_words in
  filter (λ part, (part ∉ approved) ∧ is_number part = false)
         (elements column_parts).

Record abbreviation_issues := {
  unrecognized_parts : list string;
  missing_terms : list string;
  suggested_replacements : gmap string string
}.

(** [validate_abbreviation_usage]. *)
Definition validate_abbreviation_usage (column_name : string)
    (abbreviations : gmap string string) (class_words : list string)
    (english_name : string) : abbreviation_issues :=
  let column_parts : gset string := list_to_set (split_on "_" column_name) in
  let approved := approved_terms abbreviations english_name class_words in
  let unrecognized :=
    filter (λ part, (part ∉ approved) ∧ is_number part = false)
           (elements column_parts) in
  match unrecognized with
  | [] => {| unrecognized_parts := [];
             missing_terms := [];
             suggested_replacements := ∅ |}
  | _ => {| unrecognized_parts := unrecognized;
            missing_terms := [];
            suggested_replacements := ∅ |}
  end.

Record class_word_result := {
  cw_status : status;
  cw_issue : string;
  cw_suggested : string
}.

(** [validate_class_word]. *)
Definition validate_class_word (column_name data_type english_name : string)
    (class_word_type_map : gmap string (list string)) : class_word_result :=
  let class_word := take 3 column_name in
  let expected_types := default [] (class_word_type_map !! class_word) in
  if bool_decide (data_type ∉ expected_types) then
    let suggested_class_word :=
      if contains "text" (lower english_name) then "TXT" else "IND" in
    {| cw_status := FAIL;
       cw_issue := "Class word '" +:+ class_word
                   +:+ "' does not match expected data type '"
                   +:+ data_type +:+ "'.";
       cw_suggested := suggested_class_word |}
  else
    {| cw_status := PASS; cw_issue := "Valid"; cw_suggested := "" |}.

(** The table local to [validate_data_dictionary]. *)
Definition class_word_type_map : gmap string (list string) :=
  list_to_map
    [ ("TXT", ["VARCHAR"; "VARCHAR2"; "TEXT"]);
      ("NAM", ["VARCHAR"; "VARCHAR2"; "TEXT"]);
      ("CDE", ["INT"; "BIGINT"; "VARCHAR"; "VARCHAR2"; "NUMBER"]);
      ("DTE", ["DATE"; "DATETIME"; "TIMESTAMP"]);
      ("TME", ["TIME"; "DATETIME"; "TIMESTAMP"]);
      ("IDN", ["INT"; "BIGINT"; "NUMBER"]);
      ("NBR", ["INT"; "BIGINT"; "NUMBER"]);
      ("AMT", ["DECIMAL"; "FLOAT"; "NUMERIC"; "NUMBER"]);
      ("CNT", ["INT"; "BIGINT"; "NUMBER"]);
      ("IND", ["BOOLEAN"; "CHAR"; "VARCHAR"; "VARCHAR2"]) ].

(** ** Capitalisation rule *)

(** The values [capitalize_english_name] tells apart with [isinstance]. *)
Inductive pyval :=
| VNone
| VStr (s : string)
| VDict (d : gmap string string)
| VOther (repr : string).

Definition allowed_words : list string :=
  ["in"; "of"; "the"; "and"; "to"; "for"; "with"; "at"; "by"; "from";
   "on"; "or"].

Definition capitalize_word (i : nat) (word : string) : string :=
  if bool_decide (i = 0%nat) || bool_decide (lower word ∉ allowed_words)
  then capitalize word else lower word.

Definition capitalize_str (english_name : string) : string :=
  let words := split_ws english_name in
  let capitalized_words := imap capitalize_word words in
  join " " capitalized_words.

(** [capitalize_english_name]. *)
Definition capitalize_english_name (english_name : pyval) : string :=
  match english_name with
  | VDict d => capitalize_str (default "" (d !! "Corrected Description"))
  | VStr s => capitalize_str s
  | VNone => ""
  | VOther repr => repr
  end.

(** [highlight_incorrect_capitalization], on a string cell. *)
Definition highlight_incorrect_capitalization (val : string)
    : string * string :=
  if String.eqb (strip val) "" then ("", "")
  else
    let corrected_val := capitalize_english_name (VStr val) in
    if bool_decide (val ≠ corrected_val)
    then ("background-color: yellow; color: black; font-weight: bold;",
          "Capitalization issue in English Name.")
    else ("", "").

(** ** The capitalisation rule on arbitrary code points *)

(** The definitions above read text on the ASCII range.  This module gives
    the same string methods as CPython computes them on any [str], a list
    of code points, with the rows of CPython's Unicode database as a
    parameter, and [capitalize_english_name] and
    [highlight_incorrect_capitalization] on top of them.  [of_string]
    embeds the ASCII model. *)
Module Unicode.

(** The rows the methods read: the full case mappings of a code point,
    the properties Cased and Case_Ignorable, and [str.isspace]. *)
Record CaseTables := {
  to_lower_full : N → list N;
  to_upper_full : N → list N;
  to_title_full : N → list N;
  is_cased : N → bool;
  is_case_ignorable : N → bool;
  is_whitespace : N → bool
}.

Fixpoint of_string (s : string) : list N :=
  match s with
  | EmptyString => []
  | String c r => N_of_ascii c :: of_string r
  end.

Section Methods.
Variable db : CaseTables.

Fixpoint skip_ignorable (s : list N) : list N :=
  match s with
  | [] => []
  | c :: r => if is_case_ignorable db c then skip_ignorable r else s
  end.

(** [handle_capital_sigma]: the capital sigma U+03A3 is lower-cased to the
    final sigma when a cased letter comes before it and none after it,
    case-ignorable characters aside.  [before] is the text before the
    sigma, nearest character first. *)
Definition final_sigma (before after : list N) : bool :=
  match skip_ignorable before with
  | [] => false
  | c :: _ =>
      is_cased db c
      && match skip_ignorable after with
         | [] => true
         | c' :: _ => negb (is_cased db c')
         end
  end.

(** [lower_ucs4] along a string. *)
Fixpoint lower_from (before s : list N) : list N :=
  match s with
  | [] => []
  | c :: r =>
      (if (c =? 931)%N
       then [if final_sigma before r then 962%N else 963%N]
       else to_lower_full db c)
      ++ lower_from (c :: before) r
  end.

(** [s.lower()], [s.upper()], [s.capitalize()]: the first character is
    title-cased, the others lower-cased. *)
Definition lower (s : list N) : list N := lower_from [] s.

Definition upper (s : list N) : list N := flat_map (to_upper_full db) s.

Definition capitalize (s : list N) : list N :=
  match s with
  | [] => []
  | c :: r => to_title_full db c ++ lower_from [c] r
  end.

(** [s.split()] and [s.strip()]. *)
Definition push_word (w : list N) (ws : list (list N)) : list (list N) :=
  match w with
  | [] => ws
  | _ => w :: ws
  end.

Fixpoint words_from (s : list N) : list N * list (list N) :=
  match s with
  | [] => ([], [])
  | c :: r =>
      let '(w, ws) := words_from r in
      if is_whitespace db c then ([], push_word w ws) else (c :: w, ws)
  end.

Definition split_ws (s : list N) : list (list N) :=
  let '(w, ws) := words_from s in push_word w ws.

Fixpoint lstrip (s : list N) : list N :=
  match s with
  | [] => []
  | c :: r => if is_whitespace db c then lstrip r else s
  end.

Fixpoint rstrip (s : list N) : list N :=
  match s with
  | [] => []
  | c :: r =>
      match rstrip r with
      | [] => if is_whitespace db c then [] else [c]
      | r' => c :: r'
      end
  end.

Definition strip (s : list N) : list N := rstrip (lstrip s).

(** [sep.join(l)]. *)
Fixpoint join (sep : list N) (l : list (list N)) : list N :=
  match l with
  | [] => []
  | [x] => x
  | x :: r => x ++ sep ++ join sep r
  end.

Definition capitalize_word (i : nat) (word : list N) : list N :=
  if bool_decide (i = 0%nat)
     || bool_decide (lower word ∉ of_string <$> allowed_words)
  then capitalize word else lower word.

(** [capitalize_english_name] on a [str]. *)
Definition capitalize_english_name (english_name : list N) : list N :=
  let words := split_ws english_name in
  let capitalized_words := imap capitalize_word words in
  join (of_string " ") capitalized_words.

(** [highlight_incorrect_capitalization] on a [str]. *)
Definition highlight_incorrect_capitalization (val : list N)
    : string * string :=
  if bool_decide (strip val = []) then ("", "")
  else
    let corrected_val := capitalize_english_name val in
    if bool_decide (val ≠ corrected_val)
    then ("background-color: yellow; color: black; font-weight: bold;",
          "Capitalization issue in English Name.")
    else ("", "").

End Methods.

(** Whitespace as [str.isspace] has it, on every code point. *)
Definition unicode_whitespace (c : N) : bool :=
  ((9 <=? c) && (c <=? 13) || (28 <=? c) && (c <=? 32) || (c =? 133)
   || (c =? 160) || (c =? 5760) || (8192 <=? c) && (c <=? 8202)
   || (c =? 8232) || (c =? 8233) || (c =? 8239) || (c =? 8287)
   || (c =? 12288))%N.

(** The rows of CPython's database on the ASCII range and for the code
    points U+00DF (sharp s), U+0131 (dotless i), U+0149 (n preceded by
    apostrophe) and U+02BC (modifier apostrophe).  Any other code point
    has here the row of a caseless character that maps to itself; no
    statement below reads such a row. *)
Definition cpython_rows : CaseTables :=
  {| to_lower_full c :=
       if (c <? 128)%N then [N_of_ascii (to_lower (ascii_of_N c))] else [c];
     to_upper_full c :=
       if (c <? 128)%N then [N_of_ascii (to_upper (ascii_of_N c))]
       else if (c =? 223)%N then [83; 83]%N
       else if (c =? 305)%N then [73]%N
       else if (c =? 329)%N then [700; 78]%N
       else [c];
     to_title_full c :=
       if (c <? 128)%N then [N_of_ascii (to_upper (ascii_of_N c))]
       else if (c =? 223)%N then [83; 115]%N
       else if (c =? 305)%N then [73]%N
       else if (c =? 329)%N then [700; 78]%N
       else [c];
     is_cased c :=
       if (c <? 128)%N
       then is_upper (ascii_of_N c) || is_lower (ascii_of_N c)
       else (c =? 223)%N || (c =? 305)%N || (c =? 329)%N;
     is_case_ignorable c :=
       ((c =? 39) || (c =? 46) || (c =? 58) || (c =? 94) || (c =? 96)
        || (c =? 700))%N;
     is_whitespace := unicode_whitespace |}.

(** A table has the ASCII rows when, on the code points below 128, its
    case mappings and its whitespace are those of the ASCII model. *)
Definition ascii_rows (db : CaseTables) : bool :=
  forallb
    (λ n, let c := N.of_nat n in
          let a := ascii_of_N c in
          bool_decide (to_lower_full db c = [N_of_ascii (to_lower a)])
          && bool_decide (to_upper_full db c = [N_of_ascii (to_upper a)])
          && bool_decide (to_title_full db c = [N_of_ascii (to_upper a)])
          && Bool.eqb (is_whitespace db c) (is_space a))
    (seq 0 128).

(** Text of ASCII characters only. *)
Definition ascii_only (s : list N) : Prop := Forall (λ c, (c < 128)%N) s.

End Unicode.

(** ** Exceptions, random draws and Python numbers *)

Inductive exn := OverflowError | ValueError | IndexError | OSError.

Inductive result (A : Type) :=
| Ok (a : A)
| Raise (e : exn).
Arguments Ok {A} a.
Arguments Raise {A} e.

(** A computation that may raise and that consumes draws of the random
    generator; the state is the number of draws taken so far. *)
Definition M (A : Type) : Type := nat → result (A * nat).

Global Instance M_ret : MRet M := λ A a k, Ok (a, k).

Global Instance M_bind : MBind M := λ A B f m k,
  match m k with
  | Ok (a, k') => f a k'
  | Raise e => Raise e
  end.

Definition raise {A} (e : exn) : M A := λ _, Raise e.

Definition lift {A} (r : result A) : M A := λ k,
  match r with
  | Ok a => Ok (a, k)
  | Raise e => Raise e
  end.

(** A [float] is kept as the expression that produced it: the engine only
    formats floats, it never branches on them. *)
Inductive pyfloat :=
| FOfInt (z : Z)
| FPow10 (e : Z)
| FRandom (k : nat)
| FAdd (x y : pyfloat)
| FSub (x y : pyfloat)
| FMul (x y : pyfloat).

Inductive pynum :=
| PInt (z : Z)
| PFloat (x : pyfloat).

(** Converting an [int] to [float] raises [OverflowError] once the integer
    rounds to [2 ** 1024] or beyond. *)
Definition DBL_OVERFLOW : Z := 2 ^ 1024 - 2 ^ 970.

Definition as_float (n : pynum) : result pyfloat :=
  match n with
  | PInt z => if DBL_OVERFLOW <=? Z.abs z then Raise OverflowError
              else Ok (FOfInt z)
  | PFloat x => Ok x
  end.

Definition float_op (op : pyfloat → pyfloat → pyfloat) (a b : pynum)
    : result pynum :=
  match as_float a with
  | Raise e => Raise e
  | Ok x =>
      match as_float b with
      | Raise e => Raise e
      | Ok y => Ok (PFloat (op x y))
      end
  end.

Definition num_add (a b : pynum) : result pynum :=
  match a, b with
  | PInt x, PInt y => Ok (PInt (x + y))
  | _, _ => float_op FAdd a b
  end.

Definition num_sub (a b : pynum) : result pynum :=
  match a, b with
  | PInt x, PInt y => Ok (PInt (x - y))
  | _, _ => float_op FSub a b
  end.

Definition num_mul (a b : pynum) : result pynum :=
  match a, b with
  | PInt x, PInt y => Ok (PInt (x * y))
  | _, _ => float_op FMul a b
  end.

(** [10 ** e] for an [int] exponent: an [int] when [e] is not negative,
    otherwise the float power, which converts the exponent first. *)
Definition pow10 (e : Z) : result pynum :=
  if 0 <=? e then Ok (PInt (10 ^ e))
  else match as_float (PInt e) with
       | Raise x => Raise x
       | Ok _ => Ok (PFloat (FPow10 e))
       end.

(** The largest precision a format specification accepts. *)
Definition INT_MAX : Z := 2 ^ 31 - 1.

(** [str(n)] for an [int]: CPython refuses, with [ValueError], integers of
    more than 4300 decimal digits. *)
Definition MAX_STR_DIGITS : Z := 4300.

Definition int_str (n : Z) : result string :=
  if 10 ^ MAX_STR_DIGITS <=? Z.abs n then Raise ValueError
  else Ok (pretty n).

Inductive reply (A : Type) :=
| Answer (a : A)
| Failure (msg : string).
Arguments Answer {A} a.
Arguments Failure {A} msg.

(** What the engine reads from outside: the random generator, the clock
    and the float printer (through the strings they produce), the two
    OpenAI calls (an answer, or the message of the exception caught), and
    the file [domain_rules.txt]. *)
Record World := {
  random_tape : nat → N;
  render_fixed : pyfloat → Z → string;
  render_past_date : Z → string;
  sample_reply : string → string → Z → Z → reply (list string);
  suggestion_reply :
    string → string → string → string → string → string
    → reply (gmap string string);
  domain_rules_file : option string
}.

Section Engine.
Variable w : World.

(** [random.randint(a, b)]. *)
Definition randint (a b : pynum) : M Z := λ k,
  match a, b with
  | PInt lo, PInt hi =>
      if hi <? lo then Raise ValueError
      else Ok (lo + Z.of_N (random_tape w k) `mod` (hi - lo + 1), S k)
  | _, _ => Raise ValueError
  end.

(** [random.uniform(a, b)], that is [a + (b - a) * self.random()]. *)
Definition uniform (a b : pynum) : M pyfloat := λ k,
  match num_sub b a with
  | Raise e => Raise e
  | Ok d =>
      match num_mul d (PFloat (FRandom k)) with
      | Raise e => Raise e
      | Ok m =>
          match num_add a m with
          | Raise e => Raise e
          | Ok s =>
              match as_float s with
              | Raise e => Raise e
              | Ok x => Ok (x, S k)
              end
          end
      end
  end.

(** [f"{x:.{scale}f}"]. *)
Definition format_fixed (x : pyfloat) (scale : Z) : result string :=
  if (scale <? 0) || (INT_MAX <? scale) then Raise ValueError
  else Ok (render_fixed w x scale).

(** [for _ in range(n): samples.append(body)]. *)
Fixpoint for_range {A} (n : nat) (body : M A) (samples : list A)
    : M (list A) :=
  match n with
  | O => mret samples
  | S n' => x ← body; for_range n' body (samples ++ [x])
  end.

(** [call_openai_for_sample_data]. *)
Definition call_openai_for_sample_data (column_name description : string)
    (precision scale : Z) (openai_api_key : string) : list string :=
  match sample_reply w column_name description precision scale with
  | Answer samples => samples
  | Failure msg => ["Error: " +:+ msg; "N/A"; "N/A"]
  end.

(** [generate_sample_data].  The first rule that matches wins; every loop
    appends three samples, one draw each.  ([description_lower] is bound in
    the source and never read.) *)
Definition generate_sample_data (data_type : string) (precision scale : Z)
    (column_name description openai_api_key : string) : M (list string) :=
  let column_name_lower := lower column_name in
  samples ←
    (if contains "date" column_name_lower || contains "dob" column_name_lower
        || contains "birth" column_name_lower then
       for_range 3
         (days ← randint (PInt 5000) (PInt 30000);
          mret (render_past_date w days)) []
     else if contains "id" column_name_lower
             || contains "code" column_name_lower
             || contains "ref" column_name_lower then
       for_range 3
         (n ← randint (PInt 1000) (PInt 9999);
          s ← lift (int_str n);
          mret ("ID" +:+ s)) []
     else if contains "price" column_name_lower
             || contains "amount" column_name_lower
             || contains "cost" column_name_lower then
       for_range 3
         (x ← uniform (PInt 10) (PInt 10000);
          s ← lift (format_fixed x scale);
          mret ("$" +:+ s)) []
     else if startswith data_type "DECIMAL" || startswith data_type "FLOAT"
     then
       for_range 3
         (lo ← lift (pow10 (precision - scale - 1));
          hi ← lift (pow10 (precision - scale));
          x ← uniform lo hi;
          lift (format_fixed x scale)) []
     else if startswith data_type "INT" || startswith data_type "BIGINT" then
       for_range 3
         (lo ← (if bool_decide (precision ≠ 0)
                then lift (pow10 (precision - 1)) else mret (PInt 1));
          hi ← (if bool_decide (precision ≠ 0)
                then p ← lift (pow10 precision); lift (num_sub p (PInt 1))
                else mret (PInt 9999));
          n ← randint lo hi;
          lift (int_str n)) []
     else
       mret (call_openai_for_sample_data column_name description
               precision scale openai_api_key));
  mret (match samples with
        | [] => ["N/A"; "N/A"; "N/A"]
        | _ => samples
        end).

End Engine.

(** ** The per-row engine *)

(** One row of the data dictionary: the text of the string cells, and the
    two numeric cells ([None] when the cell is empty). *)
Record Row := {
  cell_table_name : string;
  cell_column_name : string;
  cell_english_name : string;
  cell_data_type : string;
  cell_precision : option Z;
  cell_scale : option Z;
  cell_description : string
}.

(** One record of the result frame. *)
Record Verdict := {
  v_table_name : string;
  v_column_name : string;
  v_english_name : string;
  v_data_type : string;
  v_precision : Z;
  v_scale : Z;
  v_validation_status : status;
  v_notes : string;
  v_suggested_table_name : string;
  v_suggested_column_name : string;
  v_suggested_class_word : string;
  v_additional_notes : string;
  v_corrected_description : string;
  v_sample_data_1 : string;
  v_sample_data_2 : string;
  v_sample_data_3 : string
}.

(** The normalised cells, as the loop body binds them. *)
Definition table_name_of (row : Row) : string :=
  upper (strip (cell_table_name row)).
Definition column_name_of (row : Row) : string :=
  upper (strip (cell_column_name row)).
Definition english_name_of (row : Row) : string :=
  upper (strip (cell_english_name row)).
Definition english_name1_of (row : Row) : string :=
  strip (cell_english_name row).
Definition data_type_of (row : Row) : string :=
  upper (strip (cell_data_type row)).
Definition precision_of (row : Row) : Z := default 0 (cell_precision row).
Definition scale_of (row : Row) : Z := default 0 (cell_scale row).
Definition description_of (row : Row) : string :=
  strip (cell_description row).

(** [table_valid] and [table_failure_reason]. *)
Definition table_valid (table_name : string) : bool :=
  startswith table_name "T"
  && (endswith table_name "FACT" || endswith table_name "DIM"
      || endswith table_name "STG" || endswith table_name "RPTNG").

Definition table_failure_reason (table_name : string) : string :=
  if table_valid table_name then ""
  else "Table name must start with 'T' and end with {'FACT','DIM','STG','RPTNG'}.".

(** [filtered_missing_parts]. *)
Definition filtered_missing_parts (missing_parts : list string)
    (issues : abbreviation_issues) : list string :=
  filter (λ part, part ∉ unrecognized_parts issues) missing_parts.

(** [failure_reasons], after the three conditional appends. *)
Definition failure_reasons (class_word_validation : class_word_result)
    (missing_parts : list string) (issues : abbreviation_issues)
    : list string :=
  (if decide (cw_status class_word_validation = FAIL)
   then [cw_issue class_word_validation] else [])
  ++ (match filtered_missing_parts missing_parts issues with
      | [] => []
      | parts => ["Column name is missing or incorrect for: "
                  +:+ join ", " parts]
      end)
  ++ (match unrecognized_parts issues with
      | [] => []
      | parts => ["Unrecognized abbreviation(s): " +:+ join ", " parts
                  +:+ " are not in the approved list."]
      end).

Definition row_failure_reasons (class_words : list string)
    (abbreviations : gmap string string) (row : Row) : list string :=
  let column_name := column_name_of row in
  let english_name := english_name_of row in
  failure_reasons
    (validate_class_word column_name (data_type_of row) english_name
       class_word_type_map)
    (check_column_parts column_name abbreviations english_name class_words)
    (validate_abbreviation_usage column_name abbreviations class_words
       english_name).

(** [validation_status]. *)
Definition validation_status (reasons : list string)
    (table_reason : string) : status :=
  match reasons, table_reason with
  | [], EmptyString => PASS
  | _, _ => FAIL
  end.

Definition row_status (class_words : list string)
    (abbreviations : gmap string string) (row : Row) : status :=
  validation_status (row_failure_reasons class_words abbreviations row)
    (table_failure_reason (table_name_of row)).

(** [column_failure_reason or table_failure_reason], once the
    capitalisation note has been appended to the former. *)
Definition notes_of (st : status) (column_failure_reason table_reason
    capitalization_issue : string) : string :=
  let column_failure_reason :=
    match capitalization_issue with
    | EmptyString => column_failure_reason
    | _ => column_failure_reason +:+ " " +:+ capitalization_issue
    end in
  match st with
  | PASS => "Valid"
  | FAIL =>
      match column_failure_reason with
      | EmptyString => table_reason
      | _ => column_failure_reason
      end
  end.

Section Batch.
Variable w : World.

(** [load_domain_rules]. *)
Definition load_domain_rules : result string :=
  match domain_rules_file w with
  | Some text => Ok text
  | None => Raise OSError
  end.

(** [call_openai_suggestion], the six-argument definition, which is the
    one in force when the loop runs. *)
Definition call_openai_suggestion (table_name column_name english_name
    table_reason column_failure_reason rules_text : string)
    : gmap string string :=
  match suggestion_reply w table_name column_name english_name
          table_reason column_failure_reason rules_text with
  | Answer d => d
  | Failure msg =>
      <["Suggested Table Name" := table_name]>
      (<["Suggested Column Name" := column_name]>
       (<["Additional Notes" := "N/A"]> {["Error" := msg]}))
  end.

(** [l[i]]. *)
Definition index (l : list string) (i : nat) : result string :=
  match l !! i with
  | Some x => Ok x
  | None => Raise IndexError
  end.

(** The body of the loop of [validate_data_dictionary]. *)
Definition validate_row (class_words : list string)
    (abbreviations : gmap string string) (openai_api_key : string)
    (row : Row) : M Verdict :=
  let table_name := table_name_of row in
  let column_name := column_name_of row in
  let english_name := english_name_of row in
  let english_name1 := english_name1_of row in
  let data_type := data_type_of row in
  let precision := precision_of row in
  let scale := scale_of row in
  let description := description_of row in
  let table_reason := table_failure_reason table_name in
  let missing_parts :=
    check_column_parts column_name abbreviations english_name class_words in
  let issues :=
    validate_abbreviation_usage column_name abbreviations class_words
      english_name in
  let class_word_validation :=
    validate_class_word column_name data_type english_name
      class_word_type_map in
  let reasons := failure_reasons class_word_validation missing_parts issues in
  let column_failure_reason := join "; " reasons in
  let st := validation_status reasons table_reason in
  sample_data_records ←
    generate_sample_data w data_type precision scale column_name description
      openai_api_key;
  '(suggested_table_name, suggested_column_name, additional_notes) ←
    match st with
    | FAIL =>
        rules ← lift load_domain_rules;
        let openai_suggestion :=
          call_openai_suggestion table_name column_name english_name
            table_reason column_failure_reason rules in
        mret (default table_name (openai_suggestion !! "Suggested Table Name"),
              default column_name
                (openai_suggestion !! "Suggested Column Name"),
              default "N/A" (openai_suggestion !! "Additional Notes"))
    | PASS => mret ("", "", "No corrections needed.")
    end;
  let capitalization_issue :=
    snd (highlight_incorrect_capitalization english_name1) in
  s1 ← lift (index sample_data_records 0);
  s2 ← lift (index sample_data_records 1);
  s3 ← lift (index sample_data_records 2);
  mret {| v_table_name := table_name;
          v_column_name := column_name;
          v_english_name := english_name1;
          v_data_type := data_type;
          v_precision := precision;
          v_scale := scale;
          v_validation_status := st;
          v_notes := notes_of st column_failure_reason table_reason
                       capitalization_issue;
          v_suggested_table_name := suggested_table_name;
          v_suggested_column_name := suggested_column_name;
          v_suggested_class_word := cw_suggested class_word_validation;
          v_additional_notes := additional_notes;
          v_corrected_description := description;
          v_sample_data_1 := s1;
          v_sample_data_2 := s2;
          v_sample_data_3 := s3 |}.

(** [validate_data_dictionary]: the rows in order, the first exception
    ends the run. *)
Fixpoint validate_data_dictionary (rows : list Row)
    (class_words : list string) (abbreviations : gmap string string)
    (openai_api_key : string) : M (list Verdict) :=
  match rows with
  | [] => mret []
  | row :: rest =>
      v ← validate_row class_words abbreviations openai_api_key row;
      vs ← validate_data_dictionary rest class_words abbreviations
             openai_api_key;
      mret (v :: vs)
  end.

End Batch.

(** ** Reference tables and the report view *)

(** The function [applymap] receives in [load_abbreviations] and in
    [load_class_words]: string cells are stripped and upper-cased, other
    cells are left as they are. *)
Definition normalize_cell (x : pyval) : pyval :=
  match x with
  | VStr s => VStr (upper (strip s))
  | _ => x
  end.

(** [load_abbreviations]: the frame read from the upload with every cell
    normalised; the empty frame when there is no upload or when reading
    raises (the message goes to [st.error]).  A frame is the list of its
    rows. *)
Definition load_abbreviations (uploaded_file : option (reply (list (list pyval))))
    : list (list pyval) :=
  match uploaded_file with
  | Some (Answer df) => map (map normalize_cell) df
  | Some (Failure _) => []
  | None => []
  end.

(** [load_class_words], the same body. *)
Definition load_class_words (uploaded_file : option (reply (list (list pyval))))
    : list (list pyval) :=
  match uploaded_file with
  | Some (Answer df) => map (map normalize_cell) df
  | Some (Failure _) => []
  | None => []
  end.

(** [abbreviations.set_index("NAME")["ABBR"].to_dict()] in [main], on the
    (NAME, ABBR) pairs of the rows: a later row replaces an earlier one
    with the same NAME. *)
Definition abbreviations_dict (pairs : list (string * string))
    : gmap string string :=
  fold_left (λ d '(name, abbr), <[name := abbr]> d) pairs ∅.

(** [highlight_validation_status]. *)
Definition highlight_validation_status (val : status) : string :=
  match val with
  | FAIL => "background-color: orange; color: black; font-weight: bold;"
  | PASS => ""
  end.

(** The failed records of the results and their labels, as [main] offers
    them in the select box. *)
Definition failed_records (df_results : list Verdict) : list Verdict :=
  filter (λ v, v_validation_status v = FAIL) df_results.

Definition record_label (v : Verdict) : string :=
  v_table_name v +:+ " - " +:+ v_column_name v.

Definition failed_options (df_results : list Verdict) : list string :=
  record_label <$> failed_records df_results.

(** [selected_row]: the first failed record with the selected label;
    [.iloc[0]] raises [IndexError] when there is none. *)
Definition selected_row (df_results : list Verdict)
    (selected_record : string) : result Verdict :=
  match filter (λ v, record_label v = selected_record)
          (failed_records df_results) with
  | v :: _ => Ok v
  | [] => Raise IndexError
  end.

(** ** Sample inputs *)

Definition demo_abbreviations : gmap string string :=
  <["ORDER" := "ORD"]> (<["SALES" := "SLS"]> ∅).

Definition demo_class_words : list string := ["AMT"; "DTE"].

(** A world without network access: both OpenAI calls fail. *)
Definition demo_world : World :=
  {| random_tape := λ k, N.of_nat (7 * k + 13);
     render_fixed := λ _ scale, "float with " +:+ pretty scale +:+ " decimals";
     render_past_date := λ days, pretty days +:+ " days ago";
     sample_reply := λ _ _ _ _, Failure "no API key";
     suggestion_reply := λ _ _ _ _ _ _, Failure "no API key";
     domain_rules_file := Some "" |}.

(** A row that passes, with an English name in lower case. *)
Definition demo_row_pass : Row :=
  {| cell_table_name := "t_sls_ord_fact";
     cell_column_name := "amt_ord";
     cell_english_name := "order amount";
     cell_data_type := "decimal";
     cell_precision := Some 10;
     cell_scale := Some 2;
     cell_description := "Amount of the order" |}.

(** A row that fails on every count: no leading T, the class word ORD is
    not in the table, XYZ is not approved. *)
Definition demo_row_fail : Row :=
  {| cell_table_name := "SLS_ORDER_FACT";
     cell_column_name := "ORD_XYZ_AMT";
     cell_english_name := "Order Amount";
     cell_data_type := "DECIMAL";
     cell_precision := Some 10;
     cell_scale := Some 2;
     cell_description := "" |}.

(** The records the loop body returns for the two rows in [demo_world]. *)
Definition demo_verdict_pass : Verdict :=
  {| v_table_name := "T_SLS_ORD_FACT";
     v_column_name := "AMT_ORD";
     v_english_name := "order amount";
     v_data_type := "DECIMAL";
     v_precision := 10;
     v_scale := 2;
     v_validation_status := PASS;
     v_notes := "Valid";
     v_suggested_table_name := "";
     v_suggested_column_name := "";
     v_suggested_class_word := "";
     v_additional_notes := "No corrections needed.";
     v_corrected_description := "Amount of the order";
     v_sample_data_1 := "float with 2 decimals";
     v_sample_data_2 := "float with 2 decimals";
     v_sample_data_3 := "float with 2 decimals" |}.

Definition demo_verdict_fail : Verdict :=
  {| v_table_name := "SLS_ORDER_FACT";
     v_column_name := "ORD_XYZ_AMT";
     v_english_name := "Order Amount";
     v_data_type := "DECIMAL";
     v_precision := 10;
     v_scale := 2;
     v_validation_status := FAIL;
     v_notes := "Class word 'ORD' does not match expected data type 'DECIMAL'.; Unrecognized abbreviation(s): XYZ are not in the approved list.";
     v_suggested_table_name := "SLS_ORDER_FACT";
     v_suggested_column_name := "ORD_XYZ_AMT";
     v_suggested_class_word := "IND";
     v_additional_notes := "N/A";
     v_corrected_description := "";
     v_sample_data_1 := "float with 2 decimals";
     v_sample_data_2 := "float with 2 decimals";
     v_sample_data_3 := "float with 2 decimals" |}.

(** [demo_world] without the file [domain_rules.txt]. *)
Definition demo_world_no_rules : World :=
  {| random_tape := random_tape demo_world;
     render_fixed := render_fixed demo_world;
     render_past_date := render_past_date demo_world;
     sample_reply := sample_reply demo_world;
     suggestion_reply := suggestion_reply demo_world;
     domain_rules_file := None |}.

(** A row with a precision no float range can hold. *)
Definition demo_row_overflow : Row :=
  {| cell_table_name := "T_SLS_ORD_FACT";
     cell_column_name := "AMT_TOT";
     cell_english_name := "Amount Tot";
     cell_data_type := "DECIMAL";
     cell_precision := Some 400;
     cell_scale := Some 0;
     cell_description := "" |}.

(** A row that fails on the table name only, with an English name in
    lower case. *)
Definition demo_row_table_only : Row :=
  {| cell_table_name := "SLS_ORD_FACT";
     cell_column_name := "AMT_ORD";
     cell_english_name := "order amount";
     cell_data_type := "DECIMAL";
     cell_precision := Some 10;
     cell_scale := Some 2;
     cell_description := "" |}.

(** A world whose sample call answers with two samples only. *)
Definition demo_world_short_reply : World :=
  {| random_tape := random_tape demo_world;
     render_fixed := render_fixed demo_world;
     render_past_date := render_past_date demo_world;
     sample_reply := λ _ _ _ _, Answer ["Smith"; "Jones"];
     suggestion_reply := suggestion_reply demo_world;
     domain_rules_file := Some "" |}.

(** A row that no rule of the sample synthesiser takes. *)
Definition demo_row_name : Row :=
  {| cell_table_name := "T_CUS_DIM";
     cell_column_name := "NAM_CUS";
     cell_english_name := "Customer Name";
     cell_data_type := "VARCHAR";
     cell_precision := Some 30;
     cell_scale := None;
     cell_description := "" |}.

(** ** Vocabulary of the statements *)

(** Text of the ASCII model whose characters are all below 128. *)
Definition ascii_text (s : string) : Prop :=
  sall (λ c, (N_of_ascii c <? 128)%N) s = true.

(** A row that passes although one part of its column name, the digit 7
    followed by a newline, is neither approved nor made of digits. *)
Definition demo_row_newline : Row :=
  {| cell_table_name := "T_SLS_ORD_FACT";
     cell_column_name := "AMT_7" +:+ String newline "_ORD";
     cell_english_name := "Order Amount";
     cell_data_type := "DECIMAL";
     cell_precision := Some 10;
     cell_scale := Some 2;
     cell_description := "" |}.

(** The row a record of the report gives when the report is read back as a
    data dictionary: the report has the columns Table Name, Column Name,
    English Name, Data Type, Precision and Scale, and no column
    Description/Business Rules. *)
Definition row_of_verdict (v : Verdict) : Row :=
  {| cell_table_name := v_table_name v;
     cell_column_name := v_column_name v;
     cell_english_name := v_english_name v;
     cell_data_type := v_data_type v;
     cell_precision := Some (v_precision v);
     cell_scale := Some (v_scale v);
     cell_description := "" |}.

(** The class words and the type names of [class_word_type_map]. *)
Definition known_class_words : list string :=
  ["TXT"; "NAM"; "CDE"; "DTE"; "TME"; "IDN"; "NBR"; "AMT"; "CNT"; "IND"].

Definition known_type_names : list string :=
  ["VARCHAR"; "VARCHAR2"; "TEXT"; "INT"; "BIGINT"; "NUMBER"; "DATE";
   "DATETIME"; "TIMESTAMP"; "TIME"; "DECIMAL"; "FLOAT"; "NUMERIC";
   "BOOLEAN"; "CHAR"].

(** [occurs c s]: the character [c] is one of the characters of [s]. *)
Fixpoint occurs (c : ascii) (s : string) : bool :=
  match s with
  | EmptyString => false
  | String d r => Ascii.eqb c d || occurs c r
  end.

(** A purely numeric token in the words of the specification: not empty,
    and made of the decimal digits 0 to 9 only. *)
Definition digits_only (t : string) : Prop :=
  t ≠ "" ∧ sall is_digit t = true.

(** A word as [str.split()] returns them: not empty, no whitespace. *)
Definition solid (word : string) : Prop :=
  word ≠ "" ∧ sall (λ c, negb (is_space c)) word = true.

(** The conditions of the rules of [generate_sample_data], in the order
    the function tests them. *)
Definition date_rule (column_name : string) : bool :=
  contains "date" (lower column_name) || contains "dob" (lower column_name)
  || contains "birth" (lower column_name).

Definition id_rule (column_name : string) : bool :=
  contains "id" (lower column_name) || contains "code" (lower column_name)
  || contains "ref" (lower column_name).

Definition price_rule (column_name : string) : bool :=
  contains "price" (lower column_name)
  || contains "amount" (lower column_name)
  || contains "cost" (lower column_name).

Definition decimal_rule (data_type : string) : bool :=
  startswith data_type "DECIMAL" || startswith data_type "FLOAT".

Definition integer_rule (data_type : string) : bool :=
  startswith data_type "INT" || startswith data_type "BIGINT".

(** * Properties of the string primitives *)

(** The primitives on small inputs, as CPython evaluates them. *)
Example split_ws_runs :
  split_ws "  order   amount of THE  " = ["order"; "amount"; "of"; "THE"].
Proof. reflexivity. Qed.

Example split_on_keeps_empty_parts :
  split_on "_" "A__B_" = ["A"; ""; "B"; ""] ∧ split_on "_" "" = [""].
Proof. split; reflexivity. Qed.

Example strip_upper_cell : upper (strip "  t_sls_ord_fact ") = "T_SLS_ORD_FACT".
Proof. reflexivity. Qed.

Example capitalize_lowers_the_rest : capitalize "oRDER" = "Order".
Proof. reflexivity. Qed.

Example is_number_cases :
  is_number "2024" = true ∧ is_number "" = false ∧ is_number "12A" = false
  ∧ is_number (String newline "") = false
  ∧ is_number ("1" +:+ String newline (String newline "")) = false.
Proof. repeat split; reflexivity. Qed.

Example capitalize_english_name_stopwords :
  capitalize_english_name (VStr "  of  the date OF bIRTH ")
  = "Of the Date of Birth".
Proof. reflexivity. Qed.

Module StrFacts.

Lemma app_cons c s t : String c s +:+ t = String c (s +:+ t).
Proof. reflexivity. Qed.

Lemma app_nil_l t : "" +:+ t = t.
Proof. reflexivity. Qed.

Lemma app_nil_r s : s +:+ "" = s.
Proof. induction s as [|c s IH]; [reflexivity|]. now rewrite app_cons, IH. Qed.

Lemma app_assoc s t u : (s +:+ t) +:+ u = s +:+ t +:+ u.
Proof.
  induction s as [|c s IH]; [reflexivity|].
  now rewrite !app_cons, IH.
Qed.

(** Facts on single characters are settled by running through the 256
    characters. *)
Ltac by_cases_on_char c :=
  destruct c as [[] [] [] [] [] [] [] []]; vm_compute; intuition congruence.

Lemma to_upper_idemp c : to_upper (to_upper c) = to_upper c.
Proof. by_cases_on_char c. Qed.

Lemma to_lower_idemp c : to_lower (to_lower c) = to_lower c.
Proof. by_cases_on_char c. Qed.

Lemma to_lower_upper c : to_lower (to_upper c) = to_lower c.
Proof. by_cases_on_char c. Qed.

Lemma to_upper_space c : is_space (to_upper c) = is_space c.
Proof. by_cases_on_char c. Qed.

Lemma to_lower_space c : is_space (to_lower c) = is_space c.
Proof. by_cases_on_char c. Qed.

Lemma to_upper_not_lower c : is_lower (to_upper c) = false.
Proof. by_cases_on_char c. Qed.

Lemma digit_not_newline c : is_digit c = true → Ascii.eqb c newline = false.
Proof. by_cases_on_char c. Qed.

Lemma string_eqb_eq s t : String.eqb s t = true ↔ s = t.
Proof. apply String.eqb_eq. Qed.

(** ** Prefixes, suffixes, substrings *)

Lemma prefix_spec p s : String.prefix p s = true ↔ ∃ r, s = p +:+ r.
Proof.
  revert s. induction p as [|c p IH]; intros s.
  - split; [intros _; now exists s | intros _; now destruct s].
  - destruct s as [|d s]; simpl.
    + split; [discriminate | intros [r Hr]; discriminate].
    + destruct (ascii_dec c d) as [->|Hcd].
      * rewrite IH. split; intros [r Hr]; exists r.
        -- now rewrite app_cons, <- Hr.
        -- rewrite app_cons in Hr. congruence.
      * split; [discriminate|]. intros [r Hr]. rewrite app_cons in Hr.
        congruence.
Qed.

Lemma startswith_spec s p : startswith s p = true ↔ ∃ r, s = p +:+ r.
Proof. apply prefix_spec. Qed.

Lemma endswith_nil p : endswith "" p = String.eqb "" p || false.
Proof. reflexivity. Qed.

Lemma endswith_cons c s p :
  endswith (String c s) p = String.eqb (String c s) p || endswith s p.
Proof. reflexivity. Qed.

Lemma endswith_spec s p : endswith s p = true ↔ ∃ r, s = r +:+ p.
Proof.
  induction s as [|c s IH].
  - rewrite endswith_nil, orb_false_r, string_eqb_eq. split.
    + intros <-. now exists "".
    + intros [[|d r] Hr]; [exact Hr | discriminate].
  - rewrite endswith_cons, orb_true_iff, string_eqb_eq, IH. split.
    + intros [<- | [r ->]]; [now exists "" | now exists (String c r)].
    + intros [[|d r] Hr]; [now left | right].
      rewrite app_cons in Hr. injection Hr as -> ->. now exists r.
Qed.

Lemma occurs_app c s t : occurs c (s +:+ t) = occurs c s || occurs c t.
Proof.
  induction s as [|d s IH]; [reflexivity|].
  rewrite app_cons. simpl. now rewrite IH, orb_assoc.
Qed.

Lemma contains_nil n : contains n "" = String.prefix n "" || false.
Proof. reflexivity. Qed.

Lemma contains_cons n c h :
  contains n (String c h) = String.prefix n (String c h) || contains n h.
Proof. reflexivity. Qed.

Lemma contains_spec n h : contains n h = true ↔ ∃ l r, h = l +:+ n +:+ r.
Proof.
  induction h as [|c h IH].
  - rewrite contains_nil, orb_false_r, prefix_spec. split.
    + intros [r Hr]. now exists "", r.
    + intros [[|d l] [r Hr]]; [now exists r | discriminate].
  - rewrite contains_cons, orb_true_iff, prefix_spec, IH. split.
    + intros [[r Hr] | (l & r & ->)]; [now exists "", r|].
      now exists (String c l), r.
    + intros [[|d l] [r Hr]]; [left; now exists r | right].
      rewrite app_cons in Hr. injection Hr as -> ->. now exists l, r.
Qed.

Lemma contains_occurs c n h :
  contains n h = true → occurs c n = true → occurs c h = true.
Proof.
  rewrite contains_spec. intros (l & r & ->) Hc.
  rewrite !occurs_app, Hc. now rewrite orb_true_r.
Qed.

End StrFacts.

Import StrFacts.

(** * The numeric-token predicate and the column-part check *)

Section ColumnParts.

Lemma digits_to_end_spec s :
  digits_to_end s = true ↔
  sall is_digit s = true ∨
  ∃ d, sall is_digit d = true ∧ s = d +:+ String newline "".
Proof.
  induction s as [|c s IH]; simpl.
  - split; [now left | reflexivity].
  - destruct (is_digit c) eqn:Hc; simpl.
    + rewrite IH. split.
      * intros [H | (d & Hd & ->)]; [now left | right].
        exists (String c d). simpl. now rewrite Hc, Hd.
      * intros [H | ([|c' d] & Hd & Hs)]; [now left | |].
        -- injection Hs as -> ->. apply digit_not_newline in Hc.
           now rewrite Ascii.eqb_refl in Hc.
        -- right. rewrite app_cons in Hs. injection Hs as -> ->.
           simpl in Hd. rewrite Hc in Hd. now exists d.
    + rewrite andb_true_iff, Ascii.eqb_eq, string_eqb_eq. split.
      * intros [-> ->]. right. now exists "".
      * intros [H | ([|c' d] & Hd & Hs)]; [discriminate | |].
        -- now injection Hs as -> ->.
        -- rewrite app_cons in Hs. injection Hs as -> ->.
           simpl in Hd. now rewrite Hc in Hd.
Qed.

(** What [is_number] accepts: a run of digits, or a run of digits followed
    by one final newline. *)
Lemma is_number_spec t :
  is_number t = true ↔
  digits_only t ∨ ∃ d, digits_only d ∧ t = d +:+ String newline "".
Proof.
  unfold is_number, digits_only. destruct t as [|c t]; simpl.
  - split; [discriminate|].
    intros [[H _] | ([|c d] & [H _] & Ht)]; [congruence | congruence | discriminate Ht].
  - rewrite andb_true_iff, digits_to_end_spec. split.
    + intros [Hc [Ht | (d & Hd & ->)]].
      * left. split; [discriminate | now rewrite Hc].
      * right. exists (String c d). simpl. rewrite Hc, Hd.
        repeat split; discriminate || reflexivity.
    + intros [[_ H] | ([|c' d] & [Hne Hd] & Ht)].
      * apply andb_true_iff in H as [Hc Ht]. split; [done | now left].
      * congruence.
      * rewrite app_cons in Ht. injection Ht as -> ->. simpl in Hd.
        apply andb_true_iff in Hd as [Hc Hd]. split; [done|].
        right. now exists d.
Qed.

Lemma digits_only_is_number t : digits_only t → is_number t = true.
Proof. intros H. apply is_number_spec. now left. Qed.

Lemma elem_of_approved_terms abbreviations english_name class_words t :
  t ∈ approved_terms abbreviations english_name class_words ↔
  is_Some (abbreviations !! t) ∨ (∃ k, abbreviations !! k = Some t)
  ∨ t ∈ class_words ∨ t ∈ split_ws english_name.
Proof.
  unfold approved_terms.
  rewrite !elem_of_union, elem_of_dom, elem_of_map_img, !elem_of_list_to_set.
  tauto.
Qed.

Lemma elem_of_check_column_parts column_name abbreviations english_name
    class_words part :
  part ∈ check_column_parts column_name abbreviations english_name
           class_words ↔
  part ∈ split_on "_" column_name
  ∧ (part ∉ approved_terms abbreviations english_name class_words)
  ∧ is_number part = false.
Proof.
  unfold check_column_parts.
  rewrite list_elem_of_filter, elem_of_elements, elem_of_list_to_set. tauto.
Qed.

(** The missing-parts list is empty exactly when every part passes the
    code's own test: approved, or accepted by [is_number]. *)
Lemma check_column_parts_nil_iff column_name abbreviations english_name
    class_words :
  check_column_parts column_name abbreviations english_name class_words = []
  ↔ ∀ part, part ∈ split_on "_" column_name →
      part ∈ approved_terms abbreviations english_name class_words
      ∨ is_number part = true.
Proof.
  split.
  - intros Hnil part Hpart.
    destruct (decide (part ∈ approved_terms abbreviations english_name
                               class_words)) as [|Hout]; [now left | right].
    destruct (is_number part) eqn:Hnum; [reflexivity | exfalso].
    assert (part ∈ check_column_parts column_name abbreviations english_name
                     class_words) as Hin
      by now apply elem_of_check_column_parts.
    rewrite Hnil in Hin. by apply not_elem_of_nil in Hin.
  - intros Hall.
    destruct (check_column_parts column_name abbreviations english_name
                class_words) as [|part rest] eqn:Hparts; [reflexivity|].
    assert (part ∈ check_column_parts column_name abbreviations english_name
                     class_words) as Hin
      by (rewrite Hparts; apply list_elem_of_here).
    apply elem_of_check_column_parts in Hin as (Hpart & Hout & Hnum).
    destruct (Hall part Hpart) as [? | ?]; [done | congruence].
Qed.

(** Numeric parts are never reported, whatever the vocabulary. *)
Lemma numeric_part_not_missing column_name abbreviations english_name
    class_words part :
  is_number part = true →
  part ∉ check_column_parts column_name abbreviations english_name
           class_words.
Proof.
  intros Hnum Hin. apply elem_of_check_column_parts in Hin as (_ & _ & H).
  congruence.
Qed.

End ColumnParts.

(** C9, at the token made of the digits 1 and 2 followed by a newline:
    [is_number] answers true although the token does not consist of
    decimal digits only.  The [$] of the pattern also matches just before
    a final newline. *)
Theorem is_number_accepts_trailing_newline :
  is_number ("12" +:+ String newline "") = true
  ∧ ¬ digits_only ("12" +:+ String newline "").
Proof.
  split; [reflexivity|].
  intros [_ H]. vm_compute in H. discriminate.
Qed.

(** C3, at the identifier whose parts are the digit 7 followed by a
    newline, and AMT, with AMT the only approved term: no part is reported
    missing, although the first part is neither made of digits only nor
    approved. *)
Theorem check_column_parts_accepts_newline_part :
  let column_name := "7" +:+ String newline "_AMT" in
  let part := "7" +:+ String newline "" in
  check_column_parts column_name ∅ "" ["AMT"] = []
  ∧ part ∈ split_on "_" column_name
  ∧ ¬ digits_only part
  ∧ part ∉ approved_terms ∅ "" ["AMT"].
Proof.
  cbv zeta. split; [by vm_compute|]. split; [|split].
  - vm_compute. apply list_elem_of_here.
  - intros [_ H]. vm_compute in H. discriminate.
  - rewrite elem_of_approved_terms. intros [[x Hx] | [[k Hk] | [H | H]]].
    + by rewrite lookup_empty in Hx.
    + by rewrite lookup_empty in Hk.
    + apply list_elem_of_singleton in H. vm_compute in H. discriminate.
    + vm_compute in H. by apply not_elem_of_nil in H.
Qed.

(** * The class-word check *)

Section ClassWord.
Variable class_word_map : gmap string (list string).

Lemma validate_class_word_status column_name data_type english_name :
  cw_status (validate_class_word column_name data_type english_name
               class_word_map) = PASS
  ↔ data_type ∈ default [] (class_word_map !! take 3 column_name).
Proof.
  unfold validate_class_word. case_bool_decide as Hin; simpl.
  - split; [discriminate | tauto].
  - split; [intros _ | reflexivity].
    destruct (decide (data_type ∈
                default [] (class_word_map !! take 3 column_name))); tauto.
Qed.

(** C4: when the first three characters of the column name are a class
    word [C] that is a key of the map, the check answers PASS exactly when
    the data type is one of the types the map lists for [C]. *)
Theorem class_word_pass_iff_member column_name data_type english_name C
    types :
  take 3 column_name = C →
  class_word_map !! C = Some types →
  cw_status (validate_class_word column_name data_type english_name
               class_word_map) = PASS
  ↔ data_type ∈ types.
Proof.
  intros <- Hkey. rewrite validate_class_word_status, Hkey. reflexivity.
Qed.

(** C5: when the first three characters of the column name are not a key
    of the map, the check answers FAIL for every data type, with the
    mismatch text, and suggests TXT when the lower-cased English name
    contains "text" and IND otherwise; the answer is the one a map that
    has the class word with other types gives. *)
Theorem class_word_absent_fails column_name data_type english_name :
  class_word_map !! take 3 column_name = None →
  validate_class_word column_name data_type english_name class_word_map
  = {| cw_status := FAIL;
       cw_issue := "Class word '" +:+ take 3 column_name
                   +:+ "' does not match expected data type '"
                   +:+ data_type +:+ "'.";
       cw_suggested := if contains "text" (lower english_name)
                       then "TXT" else "IND" |}
  ∧ ∀ (other : gmap string (list string)) types,
      other !! take 3 column_name = Some types →
      data_type ∉ types →
      validate_class_word column_name data_type english_name other
      = validate_class_word column_name data_type english_name
          class_word_map.
Proof.
  intros Habsent. unfold validate_class_word. rewrite Habsent.
  change (default [] None) with (@nil string).
  rewrite (bool_decide_eq_true_2 (data_type ∉ [])) by apply not_elem_of_nil.
  split; [reflexivity|].
  intros other types Hkey Hout. rewrite Hkey.
  change (default [] (Some types)) with types.
  now rewrite (bool_decide_eq_true_2 (data_type ∉ types)).
Qed.

End ClassWord.

Lemma class_word_pass_iff_member_witness :
  cw_status (validate_class_word "AMT_ORD" "DECIMAL" "Order Amount"
               class_word_type_map) = PASS
  ↔ "DECIMAL" ∈ ["DECIMAL"; "FLOAT"; "NUMERIC"; "NUMBER"].
Proof.
  apply (class_word_pass_iff_member class_word_type_map "AMT_ORD" "DECIMAL"
           "Order Amount" "AMT"); reflexivity.
Defined.

Lemma class_word_absent_fails_witness :
  validate_class_word "ORD_DTE" "DATE" "Order Date" class_word_type_map
  = {| cw_status := FAIL;
       cw_issue := "Class word 'ORD' does not match expected data type 'DATE'.";
       cw_suggested := "IND" |}.
Proof.
  apply (class_word_absent_fails class_word_type_map "ORD_DTE" "DATE"
           "Order Date"). reflexivity.
Defined.

(** * The capitalisation rule *)

Section Capitalisation.

Local Abbreviation nospace w := (sall (λ c, negb (is_space c)) w = true).

Lemma push_word_solid w ws :
  nospace w → Forall solid ws → Forall solid (push_word w ws).
Proof.
  intros Hw Hws. destruct w as [|c w]; [exact Hws|].
  constructor; [split; [discriminate | exact Hw] | exact Hws].
Qed.

Lemma words_from_solid s :
  nospace (words_from s).1 ∧ Forall solid (words_from s).2.
Proof.
  induction s as [|c s [IHw IHws]]; simpl; [split; [reflexivity | constructor]|].
  destruct (words_from s) as [w ws]. simpl in IHw, IHws.
  destruct (is_space c) eqn:Hc; simpl.
  - split; [reflexivity | now apply push_word_solid].
  - split; [now rewrite Hc | exact IHws].
Qed.

(** [str.split()] returns words: none is empty, none has whitespace. *)
Lemma split_ws_solid s : Forall solid (split_ws s).
Proof.
  unfold split_ws. pose proof (words_from_solid s) as [Hw Hws].
  destruct (words_from s) as [w ws]. now apply push_word_solid.
Qed.

Lemma words_from_word w : nospace w → words_from w = (w, []).
Proof.
  induction w as [|c w IH]; simpl; [reflexivity|].
  intros [Hc Hw]%andb_true_iff. rewrite (IH Hw).
  apply negb_true_iff in Hc. now rewrite Hc.
Qed.

Lemma words_from_word_space w s :
  nospace w →
  words_from (w +:+ " " +:+ s)
  = (w, push_word (words_from s).1 (words_from s).2).
Proof.
  induction w as [|c w IH]; intros Hw.
  - rewrite app_nil_l. change (" " +:+ s) with (String " " s). simpl.
    now destruct (words_from s).
  - simpl in Hw. apply andb_true_iff in Hw as [Hc Hw].
    rewrite app_cons. simpl. rewrite (IH Hw).
    apply negb_true_iff in Hc. now rewrite Hc.
Qed.

Lemma join_cons2 sep x y l :
  join sep (x :: y :: l) = x +:+ sep +:+ join sep (y :: l).
Proof. reflexivity. Qed.

Lemma words_from_join w ws :
  solid w → Forall solid ws → words_from (join " " (w :: ws)) = (w, ws).
Proof.
  revert w. induction ws as [|w' ws IH]; intros w [_ Hw] Hws.
  - now apply words_from_word.
  - apply Forall_cons in Hws as [Hw' Hws].
    rewrite join_cons2, words_from_word_space by exact Hw.
    rewrite (IH w' Hw' Hws). simpl.
    destruct Hw' as [Hne _]. now destruct w'.
Qed.

(** Splitting a list of words joined by single spaces gives the words
    back. *)
Lemma split_ws_join ws : Forall solid ws → split_ws (join " " ws) = ws.
Proof.
  destruct ws as [|w ws]; [reflexivity|].
  intros [Hw Hws]%Forall_cons. unfold split_ws.
  rewrite words_from_join by assumption.
  destruct Hw as [Hne _]. now destruct w.
Qed.

Lemma lower_idemp s : lower (lower s) = lower s.
Proof.
  unfold lower. induction s as [|c s IH]; simpl; [reflexivity|].
  now rewrite to_lower_idemp, IH.
Qed.

Lemma lower_capitalize s : lower (capitalize s) = lower s.
Proof.
  destruct s as [|c s]; [reflexivity|]. unfold capitalize, lower. simpl.
  rewrite to_lower_upper. f_equal. apply lower_idemp.
Qed.

Lemma capitalize_idemp s : capitalize (capitalize s) = capitalize s.
Proof.
  destruct s as [|c s]; [reflexivity|]. unfold capitalize.
  now rewrite to_upper_idemp, lower_idemp.
Qed.

Lemma lower_solid s : solid s → solid (lower s).
Proof.
  intros [Hne Hs]. split; [now destruct s|].
  clear Hne. unfold lower. induction s as [|c s IH]; [reflexivity|].
  simpl in *. apply andb_true_iff in Hs as [Hc Hs].
  now rewrite to_lower_space, Hc, IH.
Qed.

Lemma capitalize_solid s : solid s → solid (capitalize s).
Proof.
  intros [Hne Hs]. destruct s as [|c s]; [done|].
  split; [discriminate|]. simpl in *.
  apply andb_true_iff in Hs as [Hc Hs]. rewrite to_upper_space, Hc. simpl.
  destruct s as [|d s]; [reflexivity|].
  apply (lower_solid (String d s)). split; [discriminate | exact Hs].
Qed.

Lemma capitalize_word_solid i word :
  solid word → solid (capitalize_word i word).
Proof.
  intros H. unfold capitalize_word.
  destruct (_ || _); [now apply capitalize_solid | now apply lower_solid].
Qed.

Lemma capitalize_word_idemp i word :
  capitalize_word i (capitalize_word i word) = capitalize_word i word.
Proof.
  unfold capitalize_word.
  destruct (bool_decide (i = 0%nat)); cbn [orb]; [apply capitalize_idemp|].
  destruct (bool_decide (lower word ∉ allowed_words)) eqn:Hout.
  - rewrite lower_capitalize, Hout. apply capitalize_idemp.
  - now rewrite lower_idemp, Hout.
Qed.

Lemma imap_idemp {A} (f : nat → A → A) (l : list A) :
  (∀ i x, f i (f i x) = f i x) → imap f (imap f l) = imap f l.
Proof.
  revert f. induction l as [|x l IH]; intros f Hf; [reflexivity|].
  rewrite !imap_cons, Hf. f_equal. apply IH. intros i y. apply Hf.
Qed.

Lemma imap_Forall {A} (P : A → Prop) (f : nat → A → A) (l : list A) :
  (∀ i x, P x → P (f i x)) → Forall P l → Forall P (imap f l).
Proof.
  revert f. induction l as [|x l IH]; intros f Hf Hl; [constructor|].
  apply Forall_cons in Hl as [Hx Hl]. rewrite imap_cons.
  constructor; [now apply Hf|]. apply IH; [|exact Hl].
  intros i y. apply Hf.
Qed.

(** The words of the result are the words of the input, each one put
    through [capitalize_word] at its position. *)
Lemma split_ws_capitalize_str s :
  split_ws (capitalize_str s) = imap capitalize_word (split_ws s).
Proof.
  unfold capitalize_str. apply split_ws_join.
  apply imap_Forall; [apply capitalize_word_solid | apply split_ws_solid].
Qed.

Lemma capitalize_str_idemp s :
  capitalize_str (capitalize_str s) = capitalize_str s.
Proof.
  unfold capitalize_str at 1. rewrite split_ws_capitalize_str.
  rewrite imap_idemp by apply capitalize_word_idemp. reflexivity.
Qed.

End Capitalisation.

(** On the ASCII model [capitalize_english_name] is idempotent.  Its
    result is the words of the input joined by single spaces, the first
    word capitalised, a later word lower-cased when its lower-case form is
    one of the twelve stopwords and capitalised otherwise. *)
Theorem capitalize_english_name_idempotent (s : string) :
  capitalize_english_name (VStr (capitalize_english_name (VStr s)))
  = capitalize_english_name (VStr s)
  ∧ capitalize_english_name (VStr s)
    = join " " (imap (λ i word,
                        if bool_decide (i = 0%nat) then capitalize word
                        else if bool_decide (lower word ∈ allowed_words)
                             then lower word else capitalize word)
                     (split_ws s))
  ∧ allowed_words = ["in"; "of"; "the"; "and"; "to"; "for"; "with"; "at";
                     "by"; "from"; "on"; "or"].
Proof.
  split; [apply capitalize_str_idemp|]. split; [|reflexivity].
  simpl. unfold capitalize_str. f_equal. apply imap_ext.
  intros i word _. unfold capitalize_word.
  destruct (bool_decide (i = 0%nat)); simpl; [reflexivity|].
  case_bool_decide as Hin.
  - rewrite bool_decide_eq_false_2; [reflexivity | tauto].
  - now rewrite bool_decide_eq_true_2.
Qed.

(** * The per-row verdict *)

Section RowFacts.
Variable class_words : list string.
Variable abbreviations : gmap string string.

Lemma unrecognized_parts_eq column_name english_name :
  unrecognized_parts
    (validate_abbreviation_usage column_name abbreviations class_words
       english_name)
  = check_column_parts column_name abbreviations english_name class_words.
Proof.
  unfold validate_abbreviation_usage, check_column_parts.
  now destruct (filter _ _).
Qed.

Lemma filter_out_self (l : list string) : filter (λ x, x ∉ l) l = [].
Proof.
  destruct (filter (λ x, x ∉ l) l) as [|x rest] eqn:Hf; [reflexivity|].
  assert (x ∈ filter (λ x, x ∉ l) l) as Hx
    by (rewrite Hf; apply list_elem_of_here).
  apply list_elem_of_filter in Hx as [Hout Hin]. contradiction.
Qed.

Lemma filtered_missing_parts_nil column_name english_name :
  filtered_missing_parts
    (check_column_parts column_name abbreviations english_name class_words)
    (validate_abbreviation_usage column_name abbreviations class_words
       english_name) = [].
Proof.
  unfold filtered_missing_parts. rewrite unrecognized_parts_eq.
  apply filter_out_self.
Qed.

(** The reasons of a row: the class-word issue when that check fails, then
    the unrecognised-abbreviation reason when parts are missing. *)
Lemma row_failure_reasons_eq row :
  row_failure_reasons class_words abbreviations row
  = (if decide (cw_status (validate_class_word (column_name_of row)
                             (data_type_of row) (english_name_of row)
                             class_word_type_map) = FAIL)
     then [cw_issue (validate_class_word (column_name_of row)
                       (data_type_of row) (english_name_of row)
                       class_word_type_map)]
     else [])
    ++ match check_column_parts (column_name_of row) abbreviations
               (english_name_of row) class_words with
       | [] => []
       | parts => ["Unrecognized abbreviation(s): " +:+ join ", " parts
                   +:+ " are not in the approved list."]
       end.
Proof.
  unfold row_failure_reasons, failure_reasons.
  rewrite filtered_missing_parts_nil, unrecognized_parts_eq. reflexivity.
Qed.

Lemma status_cases (st : status) : st = PASS ∨ st = FAIL.
Proof. destruct st; [now left | now right]. Qed.

Lemma validation_status_pass_iff reasons table_reason :
  validation_status reasons table_reason = PASS
  ↔ reasons = [] ∧ table_reason = "".
Proof.
  destruct reasons, table_reason; simpl; split;
    (intros [? ?] || intros ?); try discriminate; auto.
Qed.

Lemma table_failure_reason_empty table_name :
  table_failure_reason table_name = "" ↔ table_valid table_name = true.
Proof.
  unfold table_failure_reason. destruct (table_valid table_name).
  - tauto.
  - split; discriminate.
Qed.

Lemma row_status_pass_iff row :
  row_status class_words abbreviations row = PASS
  ↔ table_valid (table_name_of row) = true
    ∧ cw_status (validate_class_word (column_name_of row) (data_type_of row)
                   (english_name_of row) class_word_type_map) = PASS
    ∧ check_column_parts (column_name_of row) abbreviations
        (english_name_of row) class_words = [].
Proof.
  unfold row_status.
  rewrite validation_status_pass_iff, table_failure_reason_empty,
    row_failure_reasons_eq.
  generalize (check_column_parts (column_name_of row) abbreviations
                (english_name_of row) class_words) as parts.
  generalize (validate_class_word (column_name_of row) (data_type_of row)
                (english_name_of row) class_word_type_map) as cwv.
  intros cwv parts. destruct (cw_status cwv), parts; simpl;
    intuition congruence.
Qed.

Lemma row_status_fail_iff row :
  row_status class_words abbreviations row = FAIL
  ↔ table_valid (table_name_of row) = false
    ∨ cw_status (validate_class_word (column_name_of row) (data_type_of row)
                   (english_name_of row) class_word_type_map) = FAIL
    ∨ check_column_parts (column_name_of row) abbreviations
        (english_name_of row) class_words ≠ [].
Proof.
  pose proof (row_status_pass_iff row) as Hpass. revert Hpass.
  generalize (check_column_parts (column_name_of row) abbreviations
                (english_name_of row) class_words) as parts.
  generalize (validate_class_word (column_name_of row) (data_type_of row)
                (english_name_of row) class_word_type_map) as cwv.
  intros cwv parts Hpass.
  destruct (row_status class_words abbreviations row);
    destruct (table_valid _); destruct (cw_status cwv); destruct parts;
    intuition congruence.
Qed.

Lemma Ok_pair_inv {A} (a b : A) (k k' : nat) :
  Ok (a, k) = Ok (b, k') → a = b.
Proof. congruence. Qed.

(** What a verdict holds when the loop body returns one. *)
Lemma validate_row_Ok w openai_api_key row k v k' :
  validate_row w class_words abbreviations openai_api_key row k = Ok (v, k')
  → v_validation_status v = row_status class_words abbreviations row
    ∧ v_notes v
      = notes_of (row_status class_words abbreviations row)
          (join "; " (row_failure_reasons class_words abbreviations row))
          (table_failure_reason (table_name_of row))
          (highlight_incorrect_capitalization (english_name1_of row)).2
    ∧ (row_status class_words abbreviations row = PASS →
       v_suggested_table_name v = "" ∧ v_suggested_column_name v = ""
       ∧ v_additional_notes v = "No corrections needed.").
Proof.
  unfold validate_row, row_status, row_failure_reasons.
  set (reasons := failure_reasons _ _ _).
  set (table_reason := table_failure_reason _).
  set (st := validation_status reasons table_reason).
  cbv [mbind M_bind mret M_ret lift].
  destruct (generate_sample_data _ _ _ _ _ _ _ k) as [[samples k1]|];
    [|discriminate].
  destruct st.
  - destruct (index samples 0); [|discriminate].
    destruct (index samples 1); [|discriminate].
    destruct (index samples 2); [|discriminate].
    intros Hv%Ok_pair_inv. rewrite <- Hv.
    cbn [v_validation_status v_notes v_suggested_table_name
         v_suggested_column_name v_additional_notes]. auto.
  - destruct (load_domain_rules w); [|discriminate].
    destruct (index samples 0); [|discriminate].
    destruct (index samples 1); [|discriminate].
    destruct (index samples 2); [|discriminate].
    intros Hv%Ok_pair_inv. rewrite <- Hv. cbn [v_validation_status v_notes].
    split; [reflexivity|]. split; [reflexivity | discriminate].
Qed.

(** Every record of the result frame is the verdict of the loop body on
    the row at the same position. *)
Lemma validate_data_dictionary_rows w openai_api_key rows k vs k' :
  validate_data_dictionary w rows class_words abbreviations openai_api_key k
  = Ok (vs, k') →
  Forall2 (λ row v, ∃ k1 k2,
             validate_row w class_words abbreviations openai_api_key row k1
             = Ok (v, k2)) rows vs.
Proof.
  revert k vs k'. induction rows as [|row rows IH]; intros k vs k'.
  - intros Hv%Ok_pair_inv. subst vs. constructor.
  - cbn [validate_data_dictionary]. unfold mbind, M_bind at 1.
    destruct (validate_row _ _ _ _ row k) as [[v k1]|] eqn:Hrow;
      [|discriminate].
    unfold mbind, M_bind at 1.
    destruct (validate_data_dictionary _ rows _ _ _ k1) as [[rest k2]|]
      eqn:Hrest; [|discriminate].
    intros Hv%Ok_pair_inv. subst vs. constructor; [eauto|].
    apply (IH k1 rest k2). exact Hrest.
Qed.

End RowFacts.

(** * The text of the notes *)

Section NotesText.

(** The lower-case letter f is in none of the texts the engine writes
    into the notes, and upper-cased cells have no lower-case letter. *)
Local Abbreviation no_f s := (occurs "f" s = false).

Lemma occurs_upper c s : is_lower c = true → occurs c (upper s) = false.
Proof.
  intros Hc. unfold upper. induction s as [|d s IH]; [reflexivity|].
  simpl. rewrite IH, orb_false_r. apply Ascii.eqb_neq. intros ->.
  now rewrite to_upper_not_lower in Hc.
Qed.

Lemma occurs_take c n s : occurs c s = false → occurs c (take n s) = false.
Proof.
  revert s. induction n as [|n IH]; intros [|d s]; simpl; try reflexivity.
  intros [Hd Hs]%orb_false_iff. now rewrite Hd, IH.
Qed.

Lemma occurs_split_on c d s part :
  part ∈ split_on d s → occurs c s = false → occurs c part = false.
Proof.
  revert part. induction s as [|a s IH]; intros part; simpl.
  - now intros ->%list_elem_of_singleton.
  - intros Hpart [Ha Hs]%orb_false_iff. destruct (Ascii.eqb a d).
    + apply elem_of_cons in Hpart as [-> | Hpart]; [reflexivity|].
      now apply IH.
    + destruct (split_on d s) as [|w ws].
      * apply list_elem_of_singleton in Hpart as ->. simpl.
        now rewrite Ha.
      * apply elem_of_cons in Hpart as [-> | Hpart].
        -- simpl. rewrite Ha. apply IH; [apply list_elem_of_here | exact Hs].
        -- apply IH; [now apply list_elem_of_further | exact Hs].
Qed.

Lemma occurs_join c sep l :
  occurs c sep = false → Forall (λ x, occurs c x = false) l →
  occurs c (join sep l) = false.
Proof.
  intros Hsep. induction l as [|x l IH]; [reflexivity|].
  intros [Hx Hl]%Forall_cons. destruct l as [|y l]; [exact Hx|].
  rewrite join_cons2, !occurs_app, Hx, Hsep. now apply IH.
Qed.

Lemma no_f_cw_issue column_name data_type english_name m :
  no_f column_name → no_f data_type →
  no_f (cw_issue (validate_class_word column_name data_type english_name m)).
Proof.
  intros Hcol Hdt. unfold validate_class_word.
  destruct (bool_decide _); cbn [cw_issue]; [|reflexivity].
  rewrite !occurs_app, Hdt, (occurs_take _ 3 _ Hcol). reflexivity.
Qed.

Lemma no_f_parts column_name abbreviations english_name class_words :
  no_f column_name →
  Forall (λ part, no_f part)
    (check_column_parts column_name abbreviations english_name class_words).
Proof.
  intros Hcol. apply Forall_forall. intros part Hpart.
  apply elem_of_check_column_parts in Hpart as [Hpart _].
  now apply (occurs_split_on _ _ _ _ Hpart).
Qed.

Lemma no_f_reasons class_words abbreviations row :
  Forall (λ reason, no_f reason)
    (row_failure_reasons class_words abbreviations row).
Proof.
  rewrite row_failure_reasons_eq.
  assert (no_f (column_name_of row)) as Hcol by now apply occurs_upper.
  assert (no_f (data_type_of row)) as Hdt by now apply occurs_upper.
  apply Forall_app. split.
  - destruct (decide _); constructor; [|constructor].
    now apply no_f_cw_issue.
  - pose proof (no_f_parts (column_name_of row) abbreviations
                  (english_name_of row) class_words Hcol) as Hparts.
    destruct (check_column_parts _ _ _ _) as [|part parts];
      constructor; [|constructor].
    rewrite !occurs_app, (occurs_join "f" ", " _ eq_refl Hparts). reflexivity.
Qed.

Lemma no_f_capitalization_issue val :
  no_f (highlight_incorrect_capitalization val).2.
Proof.
  unfold highlight_incorrect_capitalization.
  destruct (String.eqb _ _); [reflexivity|].
  now destruct (bool_decide _).
Qed.

Lemma no_f_table_failure_reason table_name :
  no_f (table_failure_reason table_name).
Proof. unfold table_failure_reason. now destruct (table_valid _). Qed.

Lemma no_f_notes_of st column_reason table_reason capitalization_issue :
  no_f column_reason → no_f table_reason → no_f capitalization_issue →
  no_f (notes_of st column_reason table_reason capitalization_issue).
Proof.
  intros Hcol Htab Hcap. unfold notes_of. destruct st; [reflexivity|].
  assert (no_f (match capitalization_issue with
                | "" => column_reason
                | String _ _ =>
                    column_reason +:+ " " +:+ capitalization_issue
                end)) as Hreason.
  { destruct capitalization_issue; [exact Hcol|].
    now rewrite !occurs_app, Hcol, Hcap. }
  destruct (match capitalization_issue with "" => _ | String _ _ => _ end);
    assumption.
Qed.

Lemma no_f_verdict_notes w class_words abbreviations openai_api_key row k v
    k' :
  validate_row w class_words abbreviations openai_api_key row k = Ok (v, k')
  → no_f (v_notes v).
Proof.
  intros (_ & -> & _)%validate_row_Ok. apply no_f_notes_of.
  - apply occurs_join; [reflexivity | apply no_f_reasons].
  - apply no_f_table_failure_reason.
  - apply no_f_capitalization_issue.
Qed.

End NotesText.

(** * The verdict of a row *)

Lemma demo_pass_run :
  validate_row demo_world demo_class_words demo_abbreviations ""
    demo_row_pass 0%nat = Ok (demo_verdict_pass, 3%nat).
Proof. vm_compute. reflexivity. Qed.

Lemma demo_fail_run :
  validate_row demo_world demo_class_words demo_abbreviations ""
    demo_row_fail 0%nat = Ok (demo_verdict_fail, 3%nat).
Proof. vm_compute. reflexivity. Qed.

(** The status of a row in terms of the code's own checks: FAIL exactly
    when the table-name check fails, or the class-word check fails, or
    [check_column_parts] returns a part, and PASS otherwise; the
    capitalisation of the English name has no part in it; the verdict
    carries this status. *)
Theorem status_fail_iff_a_check_fails class_words abbreviations row :
  let table_ok := table_valid (table_name_of row) in
  let class_word_status :=
    cw_status (validate_class_word (column_name_of row) (data_type_of row)
                 (english_name_of row) class_word_type_map) in
  let missing_parts :=
    check_column_parts (column_name_of row) abbreviations
      (english_name_of row) class_words in
  let st := row_status class_words abbreviations row in
  (st = FAIL
   ↔ table_ok = false ∨ class_word_status = FAIL ∨ missing_parts ≠ [])
  ∧ (st = PASS
     ↔ ¬ (table_ok = false ∨ class_word_status = FAIL ∨ missing_parts ≠ []))
  ∧ ((highlight_incorrect_capitalization (english_name1_of row)).2 ≠ "" →
     table_ok = true → class_word_status = PASS → missing_parts = [] →
     st = PASS)
  ∧ ∀ w openai_api_key k v k',
      validate_row w class_words abbreviations openai_api_key row k
      = Ok (v, k') →
      v_validation_status v = st.
Proof.
  cbv zeta.
  pose proof (row_status_fail_iff class_words abbreviations row) as Hfail.
  pose proof (row_status_pass_iff class_words abbreviations row) as Hpass.
  split; [exact Hfail|]. split; [|split].
  - rewrite <- Hfail.
    destruct (row_status class_words abbreviations row); split; congruence.
  - intros _ Htable Hcw Hparts. apply Hpass. auto.
  - intros w key k v k' Hrun.
    now apply validate_row_Ok in Hrun as [Hst _].
Qed.

Lemma status_fail_iff_a_check_fails_witness :
  (highlight_incorrect_capitalization (english_name1_of demo_row_pass)).2
  = "Capitalization issue in English Name."
  ∧ row_status demo_class_words demo_abbreviations demo_row_pass = PASS
  ∧ v_validation_status demo_verdict_pass
    = row_status demo_class_words demo_abbreviations demo_row_pass.
Proof.
  pose proof (status_fail_iff_a_check_fails demo_class_words
                demo_abbreviations demo_row_pass) as (_ & _ & Hcap & Hrun).
  split; [vm_compute; reflexivity|]. split.
  - apply Hcap; vm_compute; (reflexivity || discriminate).
  - apply (Hrun demo_world "" 0%nat demo_verdict_pass 3%nat).
    vm_compute. reflexivity.
Defined.

(** C2: the table-name check passes exactly when the upper-cased table
    name starts with T and ends with FACT, DIM, STG or RPTNG; when it
    fails the table failure reason is not empty and the status is FAIL,
    whatever the column checks say. *)
Theorem table_name_shape class_words abbreviations row :
  let table_name := table_name_of row in
  (table_valid table_name = true
   ↔ (∃ rest, table_name = "T" +:+ rest)
     ∧ ∃ tag stem, tag ∈ ["FACT"; "DIM"; "STG"; "RPTNG"]
                   ∧ table_name = stem +:+ tag)
  ∧ (table_valid table_name = false →
     table_failure_reason table_name ≠ ""
     ∧ row_status class_words abbreviations row = FAIL
     ∧ ∀ w openai_api_key k v k',
         validate_row w class_words abbreviations openai_api_key row k
         = Ok (v, k') →
         v_validation_status v = FAIL).
Proof.
  cbv zeta. split.
  - unfold table_valid.
    rewrite andb_true_iff, !orb_true_iff, startswith_spec, !endswith_spec.
    split.
    + intros [Hstart Hend]. split; [exact Hstart|].
      destruct Hend as [[[[stem H] | [stem H]] | [stem H]] | [stem H]];
        [exists "FACT" | exists "DIM" | exists "STG" | exists "RPTNG"];
        exists stem; (split; [rewrite !elem_of_cons; auto 6 | exact H]).
    + intros [Hstart (tag & stem & Htag & Hname)]. split; [exact Hstart|].
      rewrite !elem_of_cons in Htag.
      destruct Htag as [-> | [-> | [-> | [-> | Hnil]]]]; eauto 6.
      by apply not_elem_of_nil in Hnil.
  - intros Hbad.
    assert (row_status class_words abbreviations row = FAIL) as Hfail
      by (apply row_status_fail_iff; now left).
    split; [|split; [exact Hfail|]].
    + unfold table_failure_reason. rewrite Hbad. discriminate.
    + intros w key k v k' Hrun.
      apply validate_row_Ok in Hrun as [Hst _]. congruence.
Qed.

Lemma table_name_shape_witness :
  table_failure_reason (table_name_of demo_row_fail) ≠ ""
  ∧ v_validation_status demo_verdict_fail = FAIL.
Proof.
  pose proof (table_name_shape demo_class_words demo_abbreviations
                demo_row_fail) as [_ Hbad].
  destruct Hbad as (Hreason & _ & Hrun); [vm_compute; reflexivity|].
  split; [exact Hreason|].
  apply (Hrun demo_world "" 0%nat demo_verdict_fail 3%nat).
  vm_compute. reflexivity.
Defined.

(** C10: a verdict whose status is PASS has the notes "Valid", empty
    suggested names and the note "No corrections needed.", also when the
    capitalisation of the English name is off; the capitalisation note is
    only found on FAIL verdicts. *)
Theorem pass_verdict_notes w class_words abbreviations openai_api_key row k
    v k' :
  validate_row w class_words abbreviations openai_api_key row k = Ok (v, k')
  → (v_validation_status v = PASS →
     v_notes v = "Valid"
     ∧ v_suggested_table_name v = ""
     ∧ v_suggested_column_name v = ""
     ∧ v_additional_notes v = "No corrections needed.")
    ∧ (contains "Capitalization issue in English Name." (v_notes v) = true
       → v_validation_status v = FAIL).
Proof.
  intros (Hst & Hnotes & Hsugg)%validate_row_Ok.
  assert (v_validation_status v = PASS → v_notes v = "Valid") as Hvalid.
  { intros Hpass. rewrite Hnotes, <- Hst, Hpass. reflexivity. }
  split.
  - intros Hpass. split; [now apply Hvalid|].
    apply Hsugg. congruence.
  - intros Hcap. destruct (status_cases (v_validation_status v)) as [Hp|Hf];
      [|exact Hf].
    rewrite (Hvalid Hp) in Hcap. vm_compute in Hcap. discriminate.
Qed.

Lemma pass_verdict_notes_witness :
  (highlight_incorrect_capitalization (english_name1_of demo_row_pass)).2
  = "Capitalization issue in English Name."
  ∧ v_notes demo_verdict_pass = "Valid"
  ∧ v_suggested_table_name demo_verdict_pass = ""
  ∧ v_suggested_column_name demo_verdict_pass = ""
  ∧ v_additional_notes demo_verdict_pass = "No corrections needed.".
Proof.
  split; [vm_compute; reflexivity|].
  apply (pass_verdict_notes demo_world demo_class_words demo_abbreviations
           "" demo_row_pass 0%nat demo_verdict_pass 3%nat).
  - vm_compute. reflexivity.
  - reflexivity.
Defined.

(** C6: on equal inputs [check_column_parts] and the unrecognised parts of
    [validate_abbreviation_usage] are the same list, so the filtered list
    of missing parts is empty, the reasons of a row are the class-word
    issue and the unrecognised-abbreviation reason only, and the text
    "Column name is missing or incorrect for" is in the notes of no
    verdict. *)
Theorem missing_reason_never_reported class_words abbreviations :
  (∀ column_name english_name,
     check_column_parts column_name abbreviations english_name class_words
     = unrecognized_parts
         (validate_abbreviation_usage column_name abbreviations class_words
            english_name))
  ∧ (∀ column_name english_name,
       filtered_missing_parts
         (check_column_parts column_name abbreviations english_name
            class_words)
         (validate_abbreviation_usage column_name abbreviations class_words
            english_name) = [])
  ∧ (∀ row,
       row_failure_reasons class_words abbreviations row
       = (if decide (cw_status (validate_class_word (column_name_of row)
                                  (data_type_of row) (english_name_of row)
                                  class_word_type_map) = FAIL)
          then [cw_issue (validate_class_word (column_name_of row)
                            (data_type_of row) (english_name_of row)
                            class_word_type_map)]
          else [])
         ++ match check_column_parts (column_name_of row) abbreviations
                    (english_name_of row) class_words with
            | [] => []
            | parts => ["Unrecognized abbreviation(s): " +:+ join ", " parts
                        +:+ " are not in the approved list."]
            end)
  ∧ (∀ w openai_api_key row k v k',
       validate_row w class_words abbreviations openai_api_key row k
       = Ok (v, k') →
       contains "Column name is missing or incorrect for" (v_notes v)
       = false).
Proof.
  split; [|split; [|split]].
  - intros column_name english_name. symmetry. apply unrecognized_parts_eq.
  - apply filtered_missing_parts_nil.
  - apply row_failure_reasons_eq.
  - intros w key row k v k' Hrun. apply no_f_verdict_notes in Hrun.
    destruct (contains _ (v_notes v)) eqn:Hc; [|reflexivity].
    apply (contains_occurs "f") in Hc; [congruence | reflexivity].
Qed.

Lemma missing_reason_never_reported_witness :
  check_column_parts (column_name_of demo_row_fail) demo_abbreviations
    (english_name_of demo_row_fail) demo_class_words = ["XYZ"]
  ∧ contains "Column name is missing or incorrect for"
      (v_notes demo_verdict_fail) = false.
Proof.
  split; [vm_compute; reflexivity|].
  pose proof (missing_reason_never_reported demo_class_words
                demo_abbreviations) as (_ & _ & _ & Hnotes).
  apply (Hnotes demo_world "" demo_row_fail 0%nat demo_verdict_fail 3%nat).
  vm_compute. reflexivity.
Defined.

(** * The sample synthesiser *)

Section Samples.
Variable w : World.

Lemma DBL_OVERFLOW_above_e307 : 9 * 10 ^ 307 < DBL_OVERFLOW.
Proof. vm_compute. reflexivity. Qed.

Lemma INT_MAX_value : INT_MAX = 2147483647.
Proof. reflexivity. Qed.

Lemma as_float_int z :
  Z.abs z < DBL_OVERFLOW → as_float (PInt z) = Ok (FOfInt z).
Proof.
  intros Hz. unfold as_float.
  destruct (Z.leb_spec DBL_OVERFLOW (Z.abs z)); [lia | reflexivity].
Qed.

Lemma pow10_nonneg e : 0 ≤ e → pow10 e = Ok (PInt (10 ^ e)).
Proof.
  intros He. unfold pow10.
  destruct (Z.leb_spec 0 e); [reflexivity | lia].
Qed.

Lemma pow10_neg e :
  e < 0 → - DBL_OVERFLOW < e → pow10 e = Ok (PFloat (FPow10 e)).
Proof.
  intros He Hlow. unfold pow10.
  destruct (Z.leb_spec 0 e); [lia|]. now rewrite as_float_int by lia.
Qed.

Lemma pow10_le_e307 e : 0 ≤ e ≤ 307 → 0 < 10 ^ e ≤ 10 ^ 307.
Proof.
  intros He. split; [apply Z.pow_pos_nonneg; lia|].
  apply Z.pow_le_mono_r; lia.
Qed.

(** [random.uniform] between two integers that fit a float. *)
Lemma uniform_ints lo hi k :
  Z.abs lo < DBL_OVERFLOW → Z.abs (hi - lo) < DBL_OVERFLOW →
  ∃ x, uniform (PInt lo) (PInt hi) k = Ok (x, S k).
Proof.
  intros Hlo Hd. unfold uniform. cbn [num_sub]. unfold num_mul, float_op.
  rewrite (as_float_int _ Hd). cbn [as_float]. unfold num_add, float_op.
  rewrite (as_float_int _ Hlo). cbn [as_float]. eauto.
Qed.

(** [random.uniform] of the DECIMAL and FLOAT rule: the bounds are the
    powers of ten with exponents [e] and [e + 1]. *)
Lemma uniform_pow10 e k :
  - DBL_OVERFLOW < e → e ≤ 307 →
  ∃ lo hi x, pow10 e = Ok lo ∧ pow10 (e + 1) = Ok hi
             ∧ uniform lo hi k = Ok (x, S k).
Proof.
  intros Hlow Hhigh. pose proof DBL_OVERFLOW_above_e307 as Hbig.
  destruct (Z.le_gt_cases 0 e) as [Hpos | Hneg].
  - pose proof (pow10_le_e307 e ltac:(lia)) as He.
    assert (10 ^ (e + 1) = 10 * 10 ^ e) as Hstep
      by (rewrite Z.pow_add_r by lia; lia).
    destruct (uniform_ints (10 ^ e) (10 ^ (e + 1)) k) as [x Hx]; [lia..|].
    exists (PInt (10 ^ e)), (PInt (10 ^ (e + 1))), x.
    rewrite (pow10_nonneg e), (pow10_nonneg (e + 1)) by lia.
    split; [reflexivity|]. split; [reflexivity | exact Hx].
  - destruct (Z.eq_dec e (-1)) as [-> | Hne].
    + exists (PFloat (FPow10 (-1))), (PInt 1). eexists.
      rewrite pow10_neg by lia. split; [reflexivity|].
      split; [reflexivity|]. unfold uniform, num_sub, float_op.
      rewrite (as_float_int 1) by lia. reflexivity.
    + exists (PFloat (FPow10 e)), (PFloat (FPow10 (e + 1))). eexists.
      rewrite !pow10_neg by lia. repeat split; reflexivity.
Qed.

Lemma format_fixed_Ok x scale :
  0 ≤ scale ≤ INT_MAX → format_fixed w x scale = Ok (render_fixed w x scale).
Proof.
  intros Hs. unfold format_fixed.
  destruct (Z.ltb_spec scale 0); [lia|].
  destruct (Z.ltb_spec INT_MAX scale); [lia | reflexivity].
Qed.

Lemma randint_Ok lo hi k :
  lo ≤ hi →
  ∃ n, randint w (PInt lo) (PInt hi) k = Ok (n, S k) ∧ lo ≤ n ≤ hi.
Proof.
  intros H. unfold randint. destruct (Z.ltb_spec hi lo); [lia|].
  eexists. split; [reflexivity|].
  pose proof (Z.mod_pos_bound (Z.of_N (random_tape w k)) (hi - lo + 1)).
  lia.
Qed.

Lemma int_str_Ok n :
  Z.abs n < 10 ^ MAX_STR_DIGITS → int_str n = Ok (pretty n).
Proof.
  intros Hn. unfold int_str.
  destruct (Z.leb_spec (10 ^ MAX_STR_DIGITS) (Z.abs n)); [lia | reflexivity].
Qed.

(** Three rounds of a body that takes one draw and does not raise. *)
Lemma for_range_Ok {A} (body : M A) n samples k :
  (∀ j, ∃ x, body j = Ok (x, S j)) →
  ∃ l, for_range n body samples k = Ok (l, (n + k)%nat)
       ∧ length l = (length samples + n)%nat.
Proof.
  intros Hbody. revert samples k.
  induction n as [|n IH]; intros samples k.
  - exists samples. split; [reflexivity | now rewrite Nat.add_0_r].
  - destruct (Hbody k) as [x Hx]. cbn [for_range].
    unfold mbind, M_bind at 1. rewrite Hx.
    destruct (IH (samples ++ [x]) (S k)) as (l & Hl & Hlen).
    exists l. rewrite Hl. split; [f_equal; f_equal; lia|].
    rewrite Hlen, length_app. simpl. lia.
Qed.

(** Where the synthesiser does return three samples: a scale that a
    format accepts, a DECIMAL or FLOAT range that fits a float, and an
    OpenAI answer of three samples. *)
Lemma generate_sample_data_three data_type precision scale column_name
    description openai_api_key k :
  0 ≤ precision ≤ MAX_STR_DIGITS → 0 ≤ scale ≤ INT_MAX →
  precision - scale ≤ 308 →
  (∀ samples,
     sample_reply w column_name description precision scale = Answer samples
     → length samples = 3%nat) →
  ∃ samples k',
    generate_sample_data w data_type precision scale column_name description
      openai_api_key k = Ok (samples, k')
    ∧ length samples = 3%nat.
Proof.
  intros [Hp Hdig] Hs Hrange Hreply. unfold generate_sample_data.
  pose proof INT_MAX_value as Hmax.
  pose proof DBL_OVERFLOW_above_e307 as Hbig.
  assert (∀ (body : M string),
            (∀ j, ∃ x, body j = Ok (x, S j)) →
            ∃ samples k',
              (samples ← for_range 3 body [];
               mret (match samples with
                     | [] => ["N/A"; "N/A"; "N/A"]
                     | _ => samples
                     end)) k = Ok (samples, k')
              ∧ length samples = 3%nat) as Hloop.
  { intros body Hbody.
    destruct (for_range_Ok body 3 [] k Hbody) as (l & Hl & Hlen).
    unfold mbind, M_bind at 1. rewrite Hl.
    destruct l as [|x l]; [discriminate Hlen|].
    exists (x :: l), (3 + k)%nat. split; [reflexivity | exact Hlen]. }
  destruct (_ || _).
  { apply Hloop. intros j.
    destruct (randint_Ok 5000 30000 j) as (n & Hn & _); [lia|].
    unfold mbind, M_bind. rewrite Hn. eauto. }
  destruct (_ || _).
  { apply Hloop. intros j.
    destruct (randint_Ok 1000 9999 j) as (n & Hn & Hrange_n); [lia|].
    unfold mbind, M_bind. rewrite Hn. unfold lift at 1.
    rewrite int_str_Ok; [eauto|].
    apply Z.lt_le_trans with (10 ^ 4); [lia|].
    apply Z.pow_le_mono_r; unfold MAX_STR_DIGITS; lia. }
  destruct (_ || _).
  { apply Hloop. intros j.
    destruct (uniform_ints 10 10000 j) as [x Hx]; [lia..|].
    unfold mbind, M_bind. rewrite Hx. unfold lift at 1.
    rewrite format_fixed_Ok by lia. eauto. }
  destruct (_ || _).
  { apply Hloop. intros j.
    destruct (uniform_pow10 (precision - scale - 1) j)
      as (lo & hi & x & Hlo & Hhi & Hx); [lia..|].
    replace (precision - scale - 1 + 1) with (precision - scale) in Hhi
      by lia.
    unfold mbind, M_bind, lift. rewrite Hlo, Hhi, Hx.
    rewrite format_fixed_Ok by lia. eauto. }
  destruct (_ || _).
  { apply Hloop. intros j. case_bool_decide as Hzero.
    - assert (0 < 10 ^ (precision - 1) ≤ 10 ^ precision - 1) as Hpow.
      { assert (10 ^ precision = 10 * 10 ^ (precision - 1)) as ->.
        { rewrite <- Z.pow_succ_r by lia. f_equal. lia. }
        assert (0 < 10 ^ (precision - 1)) by (apply Z.pow_pos_nonneg; lia).
        lia. }
      assert (10 ^ precision ≤ 10 ^ MAX_STR_DIGITS) as Hdigits
        by (apply Z.pow_le_mono_r; lia).
      destruct (randint_Ok (10 ^ (precision - 1)) (10 ^ precision - 1) j)
        as (n & Hn & Hrange_n); [lia|].
      unfold mbind, M_bind, lift. rewrite !pow10_nonneg by lia.
      cbn [num_sub]. rewrite Hn, int_str_Ok by lia. eauto.
    - destruct (randint_Ok 1 9999 j) as (n & Hn & Hrange_n); [lia|].
      unfold mbind, M_bind, mret, M_ret, lift. rewrite Hn.
      rewrite int_str_Ok; [eauto|].
      apply Z.lt_le_trans with (10 ^ 4); [lia|].
      apply Z.pow_le_mono_r; unfold MAX_STR_DIGITS; lia. }
  unfold mbind, M_bind, mret, M_ret, call_openai_for_sample_data.
  destruct (sample_reply w column_name description precision scale)
    as [samples | msg] eqn:Hr.
  - pose proof (Hreply samples eq_refl) as Hlen.
    destruct samples as [|x l]; [discriminate Hlen|]. eauto.
  - eauto.
Qed.

End Samples.

Example generate_sample_data_three_demo :
  ∃ samples k',
    generate_sample_data demo_world "DECIMAL" 10 2 "TOT_AMT" "" "" 0%nat
    = Ok (samples, k')
    ∧ length samples = 3%nat.
Proof.
  apply generate_sample_data_three.
  - unfold MAX_STR_DIGITS. lia.
  - rewrite INT_MAX_value. lia.
  - lia.
  - discriminate.
Qed.

(** C7, at the data type DECIMAL with precision 400 and scale 0, for a
    column name that none of the keyword rules takes: the synthesiser
    raises [OverflowError] instead of returning three samples.  The bounds
    of [random.uniform] are the integers [10 ** 399] and [10 ** 400], and
    multiplying their difference by a float converts it to a float. *)
Theorem generate_sample_data_overflows w openai_api_key k :
  generate_sample_data w "DECIMAL" 400 0 "TOT_AMT" "" openai_api_key k
  = Raise OverflowError.
Proof. vm_compute. reflexivity. Qed.

(** * Further properties of the string primitives *)

Module StrMore.

Section Mapped.
Variable f : ascii → ascii.
Hypothesis f_space : ∀ c, is_space (f c) = is_space c.

Lemma lstrip_smap s : lstrip (smap f s) = smap f (lstrip s).
Proof.
  induction s as [|c s IH]; [reflexivity|]. simpl.
  rewrite f_space. now destruct (is_space c).
Qed.

Lemma rstrip_smap s : rstrip (smap f s) = smap f (rstrip s).
Proof.
  induction s as [|c s IH]; [reflexivity|]. simpl. rewrite IH, f_space.
  destruct (rstrip s); simpl; [now destruct (is_space c) | reflexivity].
Qed.

Lemma strip_smap s : strip (smap f s) = smap f (strip s).
Proof. unfold strip. now rewrite lstrip_smap, rstrip_smap. Qed.

Lemma push_word_smap w ws :
  push_word (smap f w) (map (smap f) ws) = map (smap f) (push_word w ws).
Proof. now destruct w. Qed.

Lemma words_from_smap s :
  words_from (smap f s)
  = (smap f (words_from s).1, map (smap f) (words_from s).2).
Proof.
  induction s as [|c s IH]; [reflexivity|]. simpl. rewrite IH, f_space.
  destruct (words_from s) as [w ws]. simpl.
  destruct (is_space c); simpl; [|reflexivity].
  now rewrite push_word_smap.
Qed.

Lemma split_ws_smap s : split_ws (smap f s) = map (smap f) (split_ws s).
Proof.
  unfold split_ws. rewrite words_from_smap.
  destruct (words_from s) as [w ws]. apply push_word_smap.
Qed.

End Mapped.

Lemma upper_idemp s : upper (upper s) = upper s.
Proof.
  unfold upper. induction s as [|c s IH]; [reflexivity|]. simpl.
  now rewrite to_upper_idemp, IH.
Qed.

Lemma lower_upper s : lower (upper s) = lower s.
Proof.
  unfold lower, upper. induction s as [|c s IH]; [reflexivity|]. simpl.
  now rewrite to_lower_upper, IH.
Qed.

Lemma capitalize_upper s : capitalize (upper s) = capitalize s.
Proof.
  destruct s as [|c s]; [reflexivity|]. unfold capitalize, upper. simpl.
  rewrite to_upper_idemp. f_equal. apply lower_upper.
Qed.

Lemma strip_upper s : strip (upper s) = upper (strip s).
Proof. apply strip_smap, to_upper_space. Qed.

Lemma split_ws_upper s : split_ws (upper s) = map upper (split_ws s).
Proof. apply split_ws_smap, to_upper_space. Qed.

Lemma lstrip_head s :
  lstrip s = "" ∨ ∃ c r, lstrip s = String c r ∧ is_space c = false.
Proof.
  induction s as [|c s IH]; [now left|]. simpl.
  destruct (is_space c) eqn:Hc; [exact IH | right; eauto].
Qed.

Lemma rstrip_cons_head c r :
  is_space c = false → ∃ r', rstrip (String c r) = String c r'.
Proof.
  intros Hc. simpl. destruct (rstrip r); [rewrite Hc|]; eauto.
Qed.

Lemma rstrip_idemp s : rstrip (rstrip s) = rstrip s.
Proof.
  induction s as [|c s IH]; [reflexivity|]. simpl.
  destruct (rstrip s) as [|d r] eqn:Hr.
  - destruct (is_space c) eqn:Hc; [reflexivity|]. simpl. now rewrite Hc.
  - change (rstrip (String c (String d r))) with
      (match rstrip (String d r) with
       | "" => if is_space c then "" else String c ""
       | r' => String c r'
       end).
    now rewrite IH.
Qed.

(** [strip] is idempotent. *)
Lemma strip_idemp s : strip (strip s) = strip s.
Proof.
  unfold strip. destruct (lstrip_head s) as [-> | (c & r & -> & Hc)];
    [reflexivity|].
  destruct (rstrip_cons_head c r Hc) as [r' Hr]. rewrite Hr. simpl.
  rewrite Hc, <- Hr. apply rstrip_idemp.
Qed.

(** The normal form of a cell, [x.strip().upper()], is stable. *)
Lemma upper_strip_idemp s : upper (strip (upper (strip s))) = upper (strip s).
Proof. now rewrite strip_upper, strip_idemp, upper_idemp. Qed.

(** A solid word, and a list of solid words joined by single spaces, have
    nothing to strip. *)
Lemma rstrip_solid w : solid w → rstrip w = w.
Proof.
  intros [Hne Hw]. induction w as [|c w IH]; [done|]. simpl in Hw.
  apply andb_true_iff in Hw as [Hc Hw]. apply negb_true_iff in Hc.
  simpl. destruct w as [|d w]; [now rewrite Hc|].
  now rewrite IH.
Qed.

Lemma rstrip_app_r a b : rstrip b ≠ "" → rstrip (a +:+ b) = a +:+ rstrip b.
Proof.
  intros Hb. induction a as [|c a IH]; [reflexivity|].
  rewrite !app_cons. simpl. rewrite IH.
  destruct (a +:+ rstrip b) eqn:Hab; [|reflexivity].
  destruct a; [|discriminate Hab]. now rewrite app_nil_l in Hab.
Qed.

Lemma join_solid_nonempty w ws : solid w → join " " (w :: ws) ≠ "".
Proof.
  intros [Hne _]. destruct w; [done|]. now destruct ws.
Qed.

Lemma rstrip_join ws : Forall solid ws → rstrip (join " " ws) = join " " ws.
Proof.
  induction ws as [|w ws IH]; [reflexivity|].
  intros [Hw Hws]%Forall_cons. destruct ws as [|w' ws].
  - now apply rstrip_solid.
  - rewrite join_cons2.
    apply Forall_cons in Hws as Hboth. destruct Hboth as [Hw' _].
    pose proof (join_solid_nonempty w' ws Hw') as Hne.
    rewrite <- (IH Hws) in Hne.
    rewrite rstrip_app_r.
    + rewrite rstrip_app_r by exact Hne. now rewrite (IH Hws).
    + rewrite rstrip_app_r by exact Hne. discriminate.
Qed.

Lemma lstrip_join ws : Forall solid ws → lstrip (join " " ws) = join " " ws.
Proof.
  destruct ws as [|w ws]; [reflexivity|].
  intros [[Hne Hw] _]%Forall_cons. destruct w as [|c w]; [done|].
  simpl in Hw. apply andb_true_iff in Hw as [Hc _].
  apply negb_true_iff in Hc.
  destruct ws; simpl; now rewrite ?app_cons, Hc.
Qed.

Lemma strip_join ws : Forall solid ws → strip (join " " ws) = join " " ws.
Proof.
  intros H. unfold strip. now rewrite lstrip_join, rstrip_join.
Qed.

(** Splitting on a separator undoes joining with it, for a non-empty list
    of words that do not contain the separator. *)
Lemma split_on_word d w : occurs d w = false → split_on d w = [w].
Proof.
  induction w as [|c w IH]; [reflexivity|]. simpl.
  intros [Hc Hw]%orb_false_iff. rewrite Ascii.eqb_sym, Hc.
  now rewrite (IH Hw).
Qed.

Lemma split_on_word_sep d w s :
  occurs d w = false →
  split_on d (w +:+ String d s) = w :: split_on d s.
Proof.
  induction w as [|c w IH]; intros Hw.
  - rewrite app_nil_l. simpl. now rewrite Ascii.eqb_refl.
  - simpl in Hw. apply orb_false_iff in Hw as [Hc Hw].
    rewrite app_cons. simpl. now rewrite Ascii.eqb_sym, Hc, (IH Hw).
Qed.

Lemma split_on_join d w ws :
  Forall (λ x, occurs d x = false) (w :: ws) →
  split_on d (join (String d "") (w :: ws)) = w :: ws.
Proof.
  revert w. induction ws as [|w' ws IH]; intros w [Hw Hws]%Forall_cons.
  - now apply split_on_word.
  - rewrite join_cons2.
    change (String d "" +:+ join (String d "") (w' :: ws))
      with (String d (join (String d "") (w' :: ws))).
    rewrite split_on_word_sep by exact Hw. now rewrite IH.
Qed.

End StrMore.

Import StrMore.

(** * Further properties of the column-part check *)

(** X1: every part [check_column_parts] reports is a part of the column
    name, and no part is reported twice, however often it occurs in the
    name. *)
Theorem check_column_parts_distinct column_name abbreviations english_name
    class_words :
  NoDup (check_column_parts column_name abbreviations english_name
           class_words)
  ∧ ∀ part,
      part ∈ check_column_parts column_name abbreviations english_name
               class_words →
      part ∈ split_on "_" column_name.
Proof.
  split.
  - unfold check_column_parts. apply NoDup_filter, NoDup_elements.
  - intros part Hpart. now apply elem_of_check_column_parts in Hpart.
Qed.

Lemma check_column_parts_distinct_witness :
  "XYZ" ∈ split_on "_" "XYZ_AMT_XYZ"
  ∧ check_column_parts "XYZ_AMT_XYZ" ∅ "" ["AMT"] = ["XYZ"].
Proof.
  split; [|vm_compute; reflexivity].
  apply (check_column_parts_distinct "XYZ_AMT_XYZ" ∅ "" ["AMT"]).
  vm_compute. apply list_elem_of_here.
Defined.

(** X2: a larger vocabulary never adds a missing part: with more
    abbreviations, more class words and more words in the English name,
    the reported parts are among those reported before. *)
Theorem check_column_parts_antitone column_name
    (abbreviations abbreviations' : gmap string string)
    english_name english_name' (class_words class_words' : list string) :
  abbreviations ⊆ abbreviations' →
  class_words ⊆ class_words' →
  split_ws english_name ⊆ split_ws english_name' →
  check_column_parts column_name abbreviations' english_name' class_words'
  ⊆ check_column_parts column_name abbreviations english_name class_words.
Proof.
  intros Habbr Hcw Heng part.
  rewrite !elem_of_check_column_parts, !elem_of_approved_terms.
  intros (Hpart & Hout & Hnum). split; [exact Hpart|]. split; [|exact Hnum].
  intros [[x Hx] | [[k Hk] | [H | H]]]; apply Hout.
  - left. exists x. now apply (lookup_weaken _ _ _ _ Hx).
  - right; left. exists k. now apply (lookup_weaken _ _ _ _ Hk).
  - right; right; left. now apply Hcw.
  - right; right; right. now apply Heng.
Qed.

Lemma check_column_parts_antitone_witness :
  check_column_parts "ORD_XYZ_AMT" demo_abbreviations "Order" demo_class_words
  ⊆ check_column_parts "ORD_XYZ_AMT" ∅ "" [].
Proof.
  apply (check_column_parts_antitone "ORD_XYZ_AMT" ∅ demo_abbreviations
           "" "Order" [] demo_class_words).
  - apply map_empty_subseteq.
  - apply list_subseteq_nil.
  - vm_compute. apply list_subseteq_nil.
Defined.

(** X3: a column name made of the words of its English name, joined by
    underscores, has no missing part, whatever the dictionaries hold. *)
Theorem english_words_are_approved (words : list string) abbreviations
    class_words :
  words ≠ [] → Forall solid words →
  Forall (λ word, occurs "_" word = false) words →
  check_column_parts (join "_" words) abbreviations (join " " words)
    class_words = [].
Proof.
  intros Hne Hsolid Hsep. apply check_column_parts_nil_iff.
  intros part Hpart. left. apply elem_of_approved_terms.
  right; right; right. rewrite split_ws_join by exact Hsolid.
  destruct words as [|w ws]; [done|].
  now rewrite (split_on_join "_" w ws Hsep) in Hpart.
Qed.

Lemma english_words_are_approved_witness :
  check_column_parts "ORDER_DATE" ∅ "ORDER DATE" [] = [].
Proof.
  apply (english_words_are_approved ["ORDER"; "DATE"] ∅ []).
  - discriminate.
  - repeat constructor; discriminate.
  - repeat constructor.
Defined.

(** X4: a row whose column-name cell is blank has status FAIL; its column
    name has the single part "", which is reported as missing unless the
    empty string is itself an abbreviation key, an abbreviation value or a
    class word. *)
Theorem blank_column_name_fails class_words abbreviations row :
  strip (cell_column_name row) = "" →
  row_status class_words abbreviations row = FAIL
  ∧ (abbreviations !! "" = None →
     (∀ k, abbreviations !! k ≠ Some "") →
     "" ∉ class_words →
     check_column_parts (column_name_of row) abbreviations
       (english_name_of row) class_words = [""]).
Proof.
  intros Hblank.
  assert (column_name_of row = "") as Hcol
    by (unfold column_name_of; now rewrite Hblank).
  split.
  - apply row_status_fail_iff. right; left. rewrite Hcol.
    destruct (cw_status _) eqn:Hst; [|reflexivity].
    apply validate_class_word_status in Hst. vm_compute in Hst.
    by apply not_elem_of_nil in Hst.
  - intros Hkey Hval Hcw. rewrite Hcol. unfold check_column_parts.
    change (split_on "_" "") with [""].
    change (list_to_set [""] : gset string) with ({[""]} ∪ ∅ : gset string).
    rewrite union_empty_r_L, elements_singleton.
    apply filter_singleton_True; [exact []|]. split; [|reflexivity].
    rewrite elem_of_approved_terms.
    intros [[x Hx] | [[k Hk] | [H | H]]].
    + congruence.
    + now apply (Hval k).
    + contradiction.
    + pose proof (split_ws_solid (english_name_of row)) as Hsolid.
      rewrite Forall_forall in Hsolid. now destruct (Hsolid "" H).
Qed.

Lemma blank_column_name_fails_witness :
  row_status demo_class_words demo_abbreviations
    {| cell_table_name := "T_SLS_ORD_FACT"; cell_column_name := "  ";
       cell_english_name := "Order"; cell_data_type := "INT";
       cell_precision := None; cell_scale := None;
       cell_description := "" |} = FAIL.
Proof.
  apply (blank_column_name_fails demo_class_words demo_abbreviations).
  reflexivity.
Defined.

(** * Further properties of the capitalisation rule *)

Lemma capitalize_word_upper i word :
  capitalize_word i (upper word) = capitalize_word i word.
Proof.
  unfold capitalize_word. now rewrite lower_upper, capitalize_upper.
Qed.

(** On the ASCII model the canonical form of a name does not depend on
    the case the name comes in. *)
Theorem capitalize_english_name_ignores_case (s : string) :
  capitalize_english_name (VStr (upper s)) = capitalize_english_name (VStr s).
Proof.
  simpl. unfold capitalize_str. rewrite split_ws_upper. f_equal.
  change (map upper (split_ws s)) with (upper <$> split_ws s).
  rewrite imap_fmap. apply imap_ext. intros i word _.
  apply capitalize_word_upper.
Qed.

(** X6: the canonical form has the words of the input, one for one,
    separated by single spaces and with no whitespace around them. *)
Theorem capitalize_english_name_shape (s : string) :
  let r := capitalize_english_name (VStr s) in
  join " " (split_ws r) = r
  ∧ strip r = r
  ∧ length (split_ws r) = length (split_ws s).
Proof.
  cbv zeta. simpl.
  assert (Forall solid (imap capitalize_word (split_ws s))) as Hsolid.
  { apply imap_Forall; [apply capitalize_word_solid | apply split_ws_solid]. }
  split; [|split].
  - now rewrite split_ws_capitalize_str.
  - unfold capitalize_str. now apply strip_join.
  - now rewrite split_ws_capitalize_str, length_imap.
Qed.

(** On the ASCII model a name in canonical form is never flagged. *)
Theorem canonical_name_not_flagged (s : string) :
  highlight_incorrect_capitalization (capitalize_english_name (VStr s))
  = ("", "").
Proof.
  unfold highlight_incorrect_capitalization.
  destruct (String.eqb _ _); [reflexivity|].
  simpl. rewrite capitalize_str_idemp.
  now rewrite bool_decide_eq_false_2 by tauto.
Qed.

(** X8: a name that is not blank and whose whitespace is not exactly one
    space between words is flagged with the capitalisation note, whatever
    the case of its letters. *)
Theorem irregular_whitespace_flagged (val : string) :
  strip val ≠ "" →
  join " " (split_ws val) ≠ val →
  (highlight_incorrect_capitalization val).2
  = "Capitalization issue in English Name.".
Proof.
  intros Hblank Hws. unfold highlight_incorrect_capitalization.
  destruct (String.eqb (strip val) "") eqn:Hb;
    [now apply String.eqb_eq in Hb|].
  rewrite bool_decide_eq_true_2; [reflexivity|].
  simpl. intros Heq. apply Hws. rewrite Heq at 1.
  now rewrite split_ws_capitalize_str.
Qed.

Lemma irregular_whitespace_flagged_witness :
  (highlight_incorrect_capitalization "Order  Date").2
  = "Capitalization issue in English Name.".
Proof.
  apply (irregular_whitespace_flagged "Order  Date"); vm_compute; discriminate.
Defined.

(** * Further properties of the sample synthesiser *)

Section SampleRules.
Variable w : World.

Lemma for_range_3 {A} (body : M A) (g : nat → A) k :
  (∀ j, body j = Ok (g j, S j)) →
  for_range 3 body [] k = Ok ([g k; g (S k); g (S (S k))], S (S (S k))).
Proof.
  intros Hbody. cbn [for_range]. unfold mbind, M_bind, mret, M_ret.
  rewrite !Hbody. reflexivity.
Qed.

Lemma finish_samples (loop : M (list string)) x y z k k' :
  loop k = Ok ([x; y; z], k') →
  (samples ← loop;
   mret (match samples with
         | [] => ["N/A"; "N/A"; "N/A"]
         | _ => samples
         end)) k = Ok ([x; y; z], k').
Proof. intros H. unfold mbind, M_bind. now rewrite H. Qed.

(** The value [random.randint(lo, hi)] takes at draw [j]. *)
Lemma randint_value lo hi j :
  lo ≤ hi →
  randint w (PInt lo) (PInt hi) j
  = Ok (lo + Z.of_N (random_tape w j) `mod` (hi - lo + 1), S j)
  ∧ lo ≤ lo + Z.of_N (random_tape w j) `mod` (hi - lo + 1) ≤ hi.
Proof.
  intros H. unfold randint. destruct (Z.ltb_spec hi lo); [lia|].
  split; [reflexivity|].
  pose proof (Z.mod_pos_bound (Z.of_N (random_tape w j)) (hi - lo + 1)).
  lia.
Qed.

End SampleRules.

(** X9: a column name that contains "date", "dob" or "birth" in any case
    gets three past dates, each 5000 to 30000 days back, whatever the data
    type, the precision and the scale are; three draws are taken and
    nothing is raised. *)
Theorem date_rule_wins w data_type precision scale column_name description
    openai_api_key k :
  date_rule column_name = true →
  ∃ d1 d2 d3,
    generate_sample_data w data_type precision scale column_name description
      openai_api_key k
    = Ok ([render_past_date w d1; render_past_date w d2;
           render_past_date w d3], (3 + k)%nat)
    ∧ Forall (λ d, 5000 ≤ d ≤ 30000) [d1; d2; d3].
Proof.
  intros Hrule. unfold date_rule in Hrule. unfold generate_sample_data.
  rewrite Hrule.
  set (g := λ j, 5000 + Z.of_N (random_tape w j) `mod` (30000 - 5000 + 1)).
  exists (g k), (g (S k)), (g (S (S k))). split.
  - apply finish_samples.
    apply (for_range_3 _ (λ j, render_past_date w (g j))).
    intros j. unfold mbind, M_bind.
    now rewrite (proj1 (randint_value w 5000 30000 j ltac:(lia))).
  - repeat constructor;
      apply (proj2 (randint_value w 5000 30000 _ ltac:(lia))).
Qed.

Lemma date_rule_wins_witness :
  ∃ d1 d2 d3,
    generate_sample_data demo_world "INT" 3 (-1) "Birth_Price" "" "" 0%nat
    = Ok ([render_past_date demo_world d1; render_past_date demo_world d2;
           render_past_date demo_world d3], 3%nat)
    ∧ Forall (λ d, 5000 ≤ d ≤ 30000) [d1; d2; d3].
Proof.
  apply (date_rule_wins demo_world "INT" 3 (-1) "Birth_Price" "" "" 0%nat).
  reflexivity.
Defined.

(** X10: when the date rule does not apply, a column name that contains
    "id", "code" or "ref" in any case gets three samples made of the
    letters ID and a number from 1000 to 9999. *)
Theorem id_rule_samples w data_type precision scale column_name description
    openai_api_key k :
  date_rule column_name = false →
  id_rule column_name = true →
  ∃ n1 n2 n3,
    generate_sample_data w data_type precision scale column_name description
      openai_api_key k
    = Ok (["ID" +:+ pretty n1; "ID" +:+ pretty n2; "ID" +:+ pretty n3],
          (3 + k)%nat)
    ∧ Forall (λ n, 1000 ≤ n ≤ 9999) [n1; n2; n3].
Proof.
  intros Hdate Hrule. unfold date_rule in Hdate. unfold id_rule in Hrule.
  unfold generate_sample_data. rewrite Hdate, Hrule.
  set (g := λ j, 1000 + Z.of_N (random_tape w j) `mod` (9999 - 1000 + 1)).
  assert (∀ j, 1000 ≤ g j ≤ 9999) as Hg
    by (intros j; apply (proj2 (randint_value w 1000 9999 j ltac:(lia)))).
  exists (g k), (g (S k)), (g (S (S k))). split.
  - apply finish_samples.
    apply (for_range_3 _ (λ j, "ID" +:+ pretty (g j))).
    intros j. unfold mbind, M_bind.
    rewrite (proj1 (randint_value w 1000 9999 j ltac:(lia))).
    unfold lift at 1. rewrite int_str_Ok; [reflexivity|].
    specialize (Hg j). fold (g j).
    apply Z.lt_le_trans with (10 ^ 4); [lia|].
    apply Z.pow_le_mono_r; unfold MAX_STR_DIGITS; lia.
  - repeat constructor; apply Hg.
Qed.

Lemma id_rule_samples_witness :
  ∃ n1 n2 n3,
    generate_sample_data demo_world "VARCHAR" 0 0 "VALID_IND" "" "" 0%nat
    = Ok (["ID" +:+ pretty n1; "ID" +:+ pretty n2; "ID" +:+ pretty n3],
          3%nat)
    ∧ Forall (λ n, 1000 ≤ n ≤ 9999) [n1; n2; n3].
Proof.
  apply (id_rule_samples demo_world "VARCHAR" 0 0 "VALID_IND" "" "" 0%nat);
    reflexivity.
Defined.

(** X11: under the price rule (the column name contains "price", "amount"
    or "cost", and neither earlier rule applies) a negative scale, or a
    scale above [2 ** 31 - 1], makes the synthesiser raise [ValueError]. *)
Theorem price_rule_bad_scale_raises w data_type precision scale column_name
    description openai_api_key k :
  date_rule column_name = false →
  id_rule column_name = false →
  price_rule column_name = true →
  scale < 0 ∨ INT_MAX < scale →
  generate_sample_data w data_type precision scale column_name description
    openai_api_key k = Raise ValueError.
Proof.
  intros Hdate Hid Hrule Hscale.
  unfold date_rule in Hdate. unfold id_rule in Hid.
  unfold price_rule in Hrule. unfold generate_sample_data.
  rewrite Hdate, Hid, Hrule.
  assert (format_fixed w (FAdd (FOfInt 10)
                            (FMul (FOfInt (10000 - 10)) (FRandom k))) scale
          = Raise ValueError) as Hfmt.
  { unfold format_fixed.
    destruct (Z.ltb_spec scale 0); [reflexivity|].
    destruct (Z.ltb_spec INT_MAX scale); [reflexivity | lia]. }
  cbn [for_range]. unfold mbind, M_bind at 1. unfold mbind, M_bind at 1.
  unfold mbind, M_bind at 1.
  change (uniform (PInt 10) (PInt 10000) k)
    with (Ok (FAdd (FOfInt 10) (FMul (FOfInt (10000 - 10)) (FRandom k)),
              S k) : result (pyfloat * nat)).
  cbv beta iota. unfold mbind, M_bind at 1. unfold lift at 1.
  now rewrite Hfmt.
Qed.

Lemma price_rule_bad_scale_raises_witness :
  generate_sample_data demo_world "DECIMAL" 10 (-2) "UNIT_PRICE" "" "" 0%nat
  = Raise ValueError.
Proof.
  apply (price_rule_bad_scale_raises demo_world "DECIMAL" 10 (-2)
           "UNIT_PRICE" "" "" 0%nat); try reflexivity.
  left. lia.
Defined.

(** X12: under the integer rule (data type starting with INT or BIGINT,
    no keyword rule and not the decimal rule) with a precision [p] from 1
    to 4300, the three samples are integers of exactly [p] digits; with
    precision 0 they are integers from 1 to 9999. *)
Theorem integer_rule_digits w data_type precision scale column_name
    description openai_api_key k :
  date_rule column_name = false →
  id_rule column_name = false →
  price_rule column_name = false →
  decimal_rule data_type = false →
  integer_rule data_type = true →
  0 ≤ precision ≤ MAX_STR_DIGITS →
  ∃ n1 n2 n3,
    generate_sample_data w data_type precision scale column_name description
      openai_api_key k
    = Ok ([pretty n1; pretty n2; pretty n3], (3 + k)%nat)
    ∧ Forall (λ n, if bool_decide (precision = 0) then 1 ≤ n ≤ 9999
                   else 10 ^ (precision - 1) ≤ n < 10 ^ precision)
        [n1; n2; n3].
Proof.
  intros Hdate Hid Hprice Hdec Hint [Hp Hdig].
  unfold date_rule in Hdate. unfold id_rule in Hid.
  unfold price_rule in Hprice. unfold decimal_rule in Hdec.
  unfold integer_rule in Hint. unfold generate_sample_data.
  rewrite Hdate, Hid, Hprice, Hdec, Hint.
  destruct (decide (precision = 0)) as [Hzero | Hpos].
  - rewrite (bool_decide_eq_false_2 (precision ≠ 0)) by tauto.
    rewrite (bool_decide_eq_true_2 (precision = 0)) by exact Hzero.
    set (g := λ j, 1 + Z.of_N (random_tape w j) `mod` (9999 - 1 + 1)).
    assert (∀ j, 1 ≤ g j ≤ 9999) as Hg
      by (intros j; apply (proj2 (randint_value w 1 9999 j ltac:(lia)))).
    exists (g k), (g (S k)), (g (S (S k))). split.
    + apply finish_samples. apply (for_range_3 _ (λ j, pretty (g j))).
      intros j. unfold mbind, M_bind, mret, M_ret.
      rewrite (proj1 (randint_value w 1 9999 j ltac:(lia))).
      unfold lift. rewrite int_str_Ok; [reflexivity|].
      specialize (Hg j). fold (g j).
      apply Z.lt_le_trans with (10 ^ 4); [lia|].
      apply Z.pow_le_mono_r; unfold MAX_STR_DIGITS; lia.
    + repeat constructor; apply Hg.
  - rewrite (bool_decide_eq_true_2 (precision ≠ 0)) by exact Hpos.
    rewrite (bool_decide_eq_false_2 (precision = 0)) by exact Hpos.
    assert (0 < 10 ^ (precision - 1) ≤ 10 ^ precision - 1) as Hpow.
    { assert (10 ^ precision = 10 * 10 ^ (precision - 1)) as ->.
      { rewrite <- Z.pow_succ_r by lia. f_equal. lia. }
      assert (0 < 10 ^ (precision - 1)) by (apply Z.pow_pos_nonneg; lia).
      lia. }
    assert (10 ^ precision ≤ 10 ^ MAX_STR_DIGITS) as Hlimit
      by (apply Z.pow_le_mono_r; lia).
    set (lo := 10 ^ (precision - 1)) in *.
    set (hi := 10 ^ precision - 1) in *.
    set (g := λ j, lo + Z.of_N (random_tape w j) `mod` (hi - lo + 1)).
    assert (∀ j, lo ≤ g j ≤ hi) as Hg
      by (intros j; apply (proj2 (randint_value w lo hi j ltac:(lia)))).
    exists (g k), (g (S k)), (g (S (S k))). split.
    + apply finish_samples. apply (for_range_3 _ (λ j, pretty (g j))).
      intros j. unfold mbind, M_bind, lift.
      rewrite !pow10_nonneg by lia. cbn [num_sub].
      fold lo. fold hi.
      rewrite (proj1 (randint_value w lo hi j ltac:(lia))).
      rewrite int_str_Ok; [reflexivity|].
      specialize (Hg j). fold (g j). lia.
    + assert (∀ j, 10 ^ (precision - 1) ≤ g j < 10 ^ precision) as Hg'
        by (intros j; specialize (Hg j); unfold lo, hi in *; lia).
      repeat (constructor; [apply Hg'|]). constructor.
Qed.

Lemma integer_rule_digits_witness :
  ∃ n1 n2 n3,
    generate_sample_data demo_world "BIGINT" 3 0 "TOT_CNT" "" "" 0%nat
    = Ok ([pretty n1; pretty n2; pretty n3], 3%nat)
    ∧ Forall (λ n, 100 ≤ n < 1000) [n1; n2; n3].
Proof.
  apply (integer_rule_digits demo_world "BIGINT" 3 0 "TOT_CNT" "" "" 0%nat);
    try reflexivity.
  unfold MAX_STR_DIGITS. lia.
Defined.

(** X13: under the integer rule every negative precision makes the
    synthesiser raise: the bounds handed to [random.randint] are floats,
    or the exponent is itself too large for a float. *)
Theorem integer_rule_negative_precision_raises w data_type precision scale
    column_name description openai_api_key k :
  date_rule column_name = false →
  id_rule column_name = false →
  price_rule column_name = false →
  decimal_rule data_type = false →
  integer_rule data_type = true →
  precision < 0 →
  ∃ e,
    generate_sample_data w data_type precision scale column_name description
      openai_api_key k = Raise e.
Proof.
  intros Hdate Hid Hprice Hdec Hint Hp.
  unfold date_rule in Hdate. unfold id_rule in Hid.
  unfold price_rule in Hprice. unfold decimal_rule in Hdec.
  unfold integer_rule in Hint. unfold generate_sample_data.
  rewrite Hdate, Hid, Hprice, Hdec, Hint.
  pose proof DBL_OVERFLOW_above_e307 as Hbig.
  rewrite (bool_decide_eq_true_2 (precision ≠ 0)) by lia.
  cbn [for_range]. unfold mbind, M_bind, lift.
  assert (∀ e, e < 0 →
               pow10 e = Raise OverflowError
               ∨ pow10 e = Ok (PFloat (FPow10 e))) as Hpow.
  { intros e He. unfold pow10. destruct (Z.leb_spec 0 e); [lia|].
    unfold as_float. destruct (DBL_OVERFLOW <=? Z.abs e); auto. }
  destruct (Hpow (precision - 1) ltac:(lia)) as [-> | ->]; [eauto|].
  destruct (Hpow precision Hp) as [-> | ->]; [eauto|].
  unfold num_sub, float_op. rewrite (as_float_int 1) by lia.
  cbn [as_float]. eauto.
Qed.

Lemma integer_rule_negative_precision_raises_witness :
  ∃ e,
    generate_sample_data demo_world "INT" (-2) 0 "TOT_CNT" "" "" 0%nat
    = Raise e.
Proof.
  apply (integer_rule_negative_precision_raises demo_world "INT" (-2) 0
           "TOT_CNT" "" "" 0%nat); try reflexivity.
Defined.

Lemma generate_sample_data_fallback w data_type precision scale column_name
    description openai_api_key k :
  date_rule column_name = false →
  id_rule column_name = false →
  price_rule column_name = false →
  decimal_rule data_type = false →
  integer_rule data_type = false →
  generate_sample_data w data_type precision scale column_name description
    openai_api_key k
  = Ok (match sample_reply w column_name description precision scale with
        | Answer [] => ["N/A"; "N/A"; "N/A"]
        | Answer samples => samples
        | Failure msg => ["Error: " +:+ msg; "N/A"; "N/A"]
        end, k).
Proof.
  intros Hdate Hid Hprice Hdec Hint.
  unfold date_rule in Hdate. unfold id_rule in Hid.
  unfold price_rule in Hprice. unfold decimal_rule in Hdec.
  unfold integer_rule in Hint. unfold generate_sample_data.
  rewrite Hdate, Hid, Hprice, Hdec, Hint.
  unfold mbind, M_bind, mret, M_ret, call_openai_for_sample_data.
  destruct (sample_reply w column_name description precision scale)
    as [[|x l]|msg]; reflexivity.
Qed.

(** X14: when no rule applies the answer of the OpenAI call is returned
    as it is, whatever its length, unless it is empty; an empty answer
    gives the N/A triple and a failed call the error placeholder.  No draw
    is taken. *)
Theorem fallback_returns_reply w data_type precision scale column_name
    description openai_api_key k :
  date_rule column_name = false →
  id_rule column_name = false →
  price_rule column_name = false →
  decimal_rule data_type = false →
  integer_rule data_type = false →
  generate_sample_data w data_type precision scale column_name description
    openai_api_key k
  = Ok (match sample_reply w column_name description precision scale with
        | Answer [] => ["N/A"; "N/A"; "N/A"]
        | Answer samples => samples
        | Failure msg => ["Error: " +:+ msg; "N/A"; "N/A"]
        end, k).
Proof. apply generate_sample_data_fallback. Qed.

Lemma fallback_returns_reply_witness :
  generate_sample_data demo_world "VARCHAR" 30 0 "CUS_NAM" "" "" 0%nat
  = Ok (["Error: no API key"; "N/A"; "N/A"], 0%nat).
Proof.
  apply (fallback_returns_reply demo_world "VARCHAR" 30 0 "CUS_NAM" "" ""
           0%nat); reflexivity.
Defined.

(** X15: three samples are returned, and nothing is raised, when the
    precision is at most 4300, the scale at most [2 ** 31 - 1], the
    precision exceeds the scale by at most 308 and the OpenAI call, if it
    answers, answers with three samples; pairs with the precision below
    the scale are included. *)
Theorem three_samples_within_bounds w data_type precision scale column_name
    description openai_api_key k :
  0 ≤ precision ≤ MAX_STR_DIGITS → 0 ≤ scale ≤ INT_MAX →
  precision - scale ≤ 308 →
  (∀ samples,
     sample_reply w column_name description precision scale = Answer samples
     → length samples = 3%nat) →
  ∃ s1 s2 s3 k',
    generate_sample_data w data_type precision scale column_name description
      openai_api_key k = Ok ([s1; s2; s3], k').
Proof.
  intros Hp Hs Hrange Hreply.
  destruct (generate_sample_data_three w data_type precision scale
              column_name description openai_api_key k Hp Hs Hrange Hreply)
    as (samples & k' & Hrun & Hlen).
  destruct samples as [|s1 [|s2 [|s3 [|s4 rest]]]]; try discriminate Hlen.
  now exists s1, s2, s3, k'.
Qed.

Lemma three_samples_within_bounds_witness :
  ∃ s1 s2 s3 k',
    generate_sample_data demo_world "DECIMAL" 2 5 "TOT_QTY" "" "" 0%nat
    = Ok ([s1; s2; s3], k').
Proof.
  apply (three_samples_within_bounds demo_world "DECIMAL" 2 5 "TOT_QTY" ""
           "" 0%nat).
  - unfold MAX_STR_DIGITS. lia.
  - rewrite INT_MAX_value. lia.
  - lia.
  - discriminate.
Defined.

(** * Further properties of the per-row verdict and of the batch *)

Section VerdictFacts.
Variable w : World.
Variable class_words : list string.
Variable abbreviations : gmap string string.
Variable openai_api_key : string.

Lemma Ok_pair_inv2 {A} (a b : A) (k k' : nat) :
  Ok (a, k) = Ok (b, k') → a = b ∧ k = k'.
Proof. intros [= -> ->]. auto. Qed.

(** The fields of a verdict that come straight from the row, and the
    samples. *)
Lemma validate_row_echo row k v k' :
  validate_row w class_words abbreviations openai_api_key row k = Ok (v, k')
  → (v_table_name v = table_name_of row
     ∧ v_column_name v = column_name_of row
     ∧ v_english_name v = english_name1_of row
     ∧ v_data_type v = data_type_of row
     ∧ v_precision v = precision_of row
     ∧ v_scale v = scale_of row
     ∧ v_corrected_description v = description_of row
     ∧ v_suggested_class_word v
       = cw_suggested (validate_class_word (column_name_of row)
                         (data_type_of row) (english_name_of row)
                         class_word_type_map))
    ∧ ∃ samples,
        generate_sample_data w (data_type_of row) (precision_of row)
          (scale_of row) (column_name_of row) (description_of row)
          openai_api_key k = Ok (samples, k')
        ∧ samples !! 0%nat = Some (v_sample_data_1 v)
        ∧ samples !! 1%nat = Some (v_sample_data_2 v)
        ∧ samples !! 2%nat = Some (v_sample_data_3 v).
Proof.
  unfold validate_row.
  set (st := validation_status _ _).
  cbv [mbind M_bind mret M_ret lift].
  destruct (generate_sample_data _ _ _ _ _ _ _ k) as [[samples k1]|];
    [|discriminate].
  unfold index.
  destruct st.
  - destruct (samples !! 0%nat) as [s1|] eqn:H1; [|discriminate].
    destruct (samples !! 1%nat) as [s2|] eqn:H2; [|discriminate].
    destruct (samples !! 2%nat) as [s3|] eqn:H3; [|discriminate].
    intros [Hv Hk]%Ok_pair_inv2. rewrite <- Hv, <- Hk.
    cbn [v_table_name v_column_name v_english_name v_data_type v_precision
         v_scale v_corrected_description v_suggested_class_word
         v_sample_data_1 v_sample_data_2 v_sample_data_3].
    split; [repeat split|]. exists samples. auto.
  - destruct (load_domain_rules w); [|discriminate].
    destruct (samples !! 0%nat) as [s1|] eqn:H1; [|discriminate].
    destruct (samples !! 1%nat) as [s2|] eqn:H2; [|discriminate].
    destruct (samples !! 2%nat) as [s3|] eqn:H3; [|discriminate].
    intros [Hv Hk]%Ok_pair_inv2. rewrite <- Hv, <- Hk.
    cbn [v_table_name v_column_name v_english_name v_data_type v_precision
         v_scale v_corrected_description v_suggested_class_word
         v_sample_data_1 v_sample_data_2 v_sample_data_3].
    split; [repeat split|]. exists samples. auto.
Qed.

(** The suggestion fields of a verdict on a FAIL row. *)
Lemma validate_row_suggestion row k v k' :
  validate_row w class_words abbreviations openai_api_key row k = Ok (v, k')
  → row_status class_words abbreviations row = FAIL
  → ∃ rules,
      domain_rules_file w = Some rules
      ∧ let d :=
          call_openai_suggestion w (table_name_of row) (column_name_of row)
            (english_name_of row) (table_failure_reason (table_name_of row))
            (join "; " (row_failure_reasons class_words abbreviations row))
            rules in
        v_suggested_table_name v
        = default (table_name_of row) (d !! "Suggested Table Name")
        ∧ v_suggested_column_name v
          = default (column_name_of row) (d !! "Suggested Column Name")
        ∧ v_additional_notes v = default "N/A" (d !! "Additional Notes").
Proof.
  unfold validate_row, row_status, row_failure_reasons.
  set (reasons := failure_reasons _ _ _).
  set (table_reason := table_failure_reason _).
  set (st := validation_status reasons table_reason).
  cbv [mbind M_bind mret M_ret lift].
  destruct (generate_sample_data _ _ _ _ _ _ _ k) as [[samples k1]|];
    [|discriminate].
  intros Hrun Hst. rewrite Hst in Hrun. unfold load_domain_rules in Hrun.
  destruct (domain_rules_file w) as [rules|]; [|discriminate].
  exists rules. split; [reflexivity|].
  destruct (index samples 0); [|discriminate].
  destruct (index samples 1); [|discriminate].
  destruct (index samples 2); [|discriminate].
  apply Ok_pair_inv in Hrun. rewrite <- Hrun.
  cbn [v_suggested_table_name v_suggested_column_name v_additional_notes].
  cbv zeta. auto.
Qed.

End VerdictFacts.

Section BatchFacts.
Variable w : World.
Variable class_words : list string.
Variable abbreviations : gmap string string.
Variable openai_api_key : string.

Lemma validate_data_dictionary_cons row rows k :
  validate_data_dictionary w (row :: rows) class_words abbreviations
    openai_api_key k
  = match validate_row w class_words abbreviations openai_api_key row k with
    | Ok (v, k1) =>
        match validate_data_dictionary w rows class_words abbreviations
                openai_api_key k1 with
        | Ok (vs, k2) => Ok (v :: vs, k2)
        | Raise e => Raise e
        end
    | Raise e => Raise e
    end.
Proof.
  cbn [validate_data_dictionary]. unfold mbind, M_bind at 1.
  destruct (validate_row _ _ _ _ row k) as [[v k1]|]; [|reflexivity].
  unfold mbind, M_bind at 1.
  now destruct (validate_data_dictionary _ rows _ _ _ k1) as [[vs k2]|].
Qed.

Lemma validate_data_dictionary_raises before row after k vs k1 e :
  validate_data_dictionary w before class_words abbreviations openai_api_key
    k = Ok (vs, k1) →
  validate_row w class_words abbreviations openai_api_key row k1 = Raise e →
  validate_data_dictionary w (before ++ row :: after) class_words
    abbreviations openai_api_key k = Raise e.
Proof.
  revert k vs. induction before as [|r before IH]; intros k vs.
  - intros [_ <-]%Ok_pair_inv2 Hrow. cbn [app].
    now rewrite validate_data_dictionary_cons, Hrow.
  - cbn [app]. rewrite !validate_data_dictionary_cons.
    destruct (validate_row _ _ _ _ r k) as [[v k2]|]; [|discriminate].
    destruct (validate_data_dictionary _ before _ _ _ k2) as [[rest k3]|]
      eqn:Hrest; [|discriminate].
    intros [_ <-]%Ok_pair_inv2 Hrow.
    now rewrite (IH k2 rest Hrest Hrow).
Qed.

Lemma generate_sample_data_ext (w' : World) data_type precision scale
    column_name description k :
  random_tape w = random_tape w' →
  render_fixed w = render_fixed w' →
  render_past_date w = render_past_date w' →
  sample_reply w = sample_reply w' →
  generate_sample_data w data_type precision scale column_name description
    openai_api_key k
  = generate_sample_data w' data_type precision scale column_name
      description openai_api_key k.
Proof.
  intros Htape Hfixed Hdate Hreply.
  unfold generate_sample_data, call_openai_for_sample_data, format_fixed,
    randint.
  now rewrite Htape, Hfixed, Hdate, Hreply.
Qed.

End BatchFacts.

(** X16: the result frame has one record per row, in the order of the
    rows; each record carries the normalised cells of its row (the English
    name stripped but in its own case) and the status of its row. *)
Theorem batch_keeps_rows_in_order w rows class_words abbreviations
    openai_api_key k vs k' :
  validate_data_dictionary w rows class_words abbreviations openai_api_key k
  = Ok (vs, k') →
  length vs = length rows
  ∧ Forall2 (λ row v,
               v_table_name v = upper (strip (cell_table_name row))
               ∧ v_column_name v = upper (strip (cell_column_name row))
               ∧ v_english_name v = strip (cell_english_name row)
               ∧ v_data_type v = upper (strip (cell_data_type row))
               ∧ v_precision v = default 0 (cell_precision row)
               ∧ v_scale v = default 0 (cell_scale row)
               ∧ v_validation_status v
                 = row_status class_words abbreviations row) rows vs.
Proof.
  intros Hrun%validate_data_dictionary_rows.
  split; [symmetry; now apply Forall2_length in Hrun|].
  eapply Forall2_impl; [exact Hrun|].
  intros row v (k1 & k2 & Hrow). cbv beta.
  pose proof (validate_row_Ok _ _ _ _ _ _ _ _ Hrow) as [Hst _].
  apply validate_row_echo in Hrow
    as [(Ht & Hc & He & Hd & Hp & Hs & _) _].
  repeat split; assumption.
Qed.

Lemma batch_keeps_rows_in_order_witness :
  length [demo_verdict_pass; demo_verdict_fail]
  = length [demo_row_pass; demo_row_fail].
Proof.
  apply (batch_keeps_rows_in_order demo_world [demo_row_pass; demo_row_fail]
           demo_class_words demo_abbreviations "" 0%nat
           [demo_verdict_pass; demo_verdict_fail] 6%nat).
  vm_compute. reflexivity.
Defined.

(** X17: the first row whose validation raises ends the run: the batch
    raises the same exception and returns no record, also none of the rows
    before it. *)
Theorem batch_stops_at_first_exception w class_words abbreviations
    openai_api_key before row after k vs k1 e :
  validate_data_dictionary w before class_words abbreviations openai_api_key
    k = Ok (vs, k1) →
  validate_row w class_words abbreviations openai_api_key row k1 = Raise e →
  validate_data_dictionary w (before ++ row :: after) class_words
    abbreviations openai_api_key k = Raise e.
Proof. apply validate_data_dictionary_raises. Qed.

Lemma batch_stops_at_first_exception_witness :
  validate_data_dictionary demo_world
    ([demo_row_pass] ++ demo_row_overflow :: [demo_row_fail])
    demo_class_words demo_abbreviations "" 0%nat = Raise OverflowError.
Proof.
  apply (batch_stops_at_first_exception demo_world demo_class_words
           demo_abbreviations "" [demo_row_pass] demo_row_overflow
           [demo_row_fail] 0%nat [demo_verdict_pass] 3%nat OverflowError);
    vm_compute; reflexivity.
Defined.

(** X18: without the file [domain_rules.txt] a row with status FAIL gets
    no verdict: when its samples are generated the row raises [OSError],
    although [call_openai_suggestion] catches its own exceptions. *)
Theorem fail_row_needs_rules_file w class_words abbreviations openai_api_key
    row k :
  domain_rules_file w = None →
  row_status class_words abbreviations row = FAIL →
  validate_row w class_words abbreviations openai_api_key row k
  = match generate_sample_data w (data_type_of row) (precision_of row)
            (scale_of row) (column_name_of row) (description_of row)
            openai_api_key k with
    | Ok _ => Raise OSError
    | Raise e => Raise e
    end.
Proof.
  intros Hfile Hst. unfold row_status, row_failure_reasons in Hst.
  unfold validate_row. cbv [mbind M_bind mret M_ret lift].
  destruct (generate_sample_data _ _ _ _ _ _ _ k) as [[samples k1]|];
    [|reflexivity].
  rewrite Hst. unfold load_domain_rules. now rewrite Hfile.
Qed.

Lemma fail_row_needs_rules_file_witness :
  validate_row demo_world_no_rules demo_class_words demo_abbreviations ""
    demo_row_fail 0%nat = Raise OSError.
Proof.
  rewrite (fail_row_needs_rules_file demo_world_no_rules demo_class_words
             demo_abbreviations "" demo_row_fail 0%nat);
    vm_compute; reflexivity.
Defined.

(** X19: when the OpenAI suggestion call fails, the verdict of a FAIL row
    suggests the row's own normalised table and column names and has the
    additional note "N/A". *)
Theorem failed_suggestion_echoes_names w class_words abbreviations
    openai_api_key row k v k' :
  (∀ a b c d e f, ∃ msg, suggestion_reply w a b c d e f = Failure msg) →
  validate_row w class_words abbreviations openai_api_key row k = Ok (v, k')
  → v_validation_status v = FAIL
  → v_suggested_table_name v = v_table_name v
    ∧ v_suggested_column_name v = v_column_name v
    ∧ v_additional_notes v = "N/A".
Proof.
  intros Hfail Hrun Hst.
  pose proof (validate_row_Ok _ _ _ _ _ _ _ _ Hrun) as [Hstatus _].
  rewrite Hstatus in Hst.
  pose proof (validate_row_echo _ _ _ _ _ _ _ _ Hrun)
    as [(Ht & Hc & _) _].
  destruct (validate_row_suggestion _ _ _ _ _ _ _ _ Hrun Hst)
    as (rules & _ & Hsugg).
  cbv zeta in Hsugg. unfold call_openai_suggestion in Hsugg.
  destruct (Hfail (table_name_of row) (column_name_of row)
              (english_name_of row)
              (table_failure_reason (table_name_of row))
              (join "; " (row_failure_reasons class_words abbreviations row))
              rules) as [msg Hmsg].
  rewrite Hmsg in Hsugg. destruct Hsugg as (-> & -> & ->).
  rewrite Ht, Hc, lookup_insert_eq.
  rewrite lookup_insert_ne, lookup_insert_eq by discriminate.
  rewrite !lookup_insert_ne, lookup_insert_eq by discriminate.
  auto.
Qed.

Lemma failed_suggestion_echoes_names_witness :
  v_suggested_table_name demo_verdict_fail = v_table_name demo_verdict_fail
  ∧ v_suggested_column_name demo_verdict_fail
    = v_column_name demo_verdict_fail
  ∧ v_additional_notes demo_verdict_fail = "N/A".
Proof.
  apply (failed_suggestion_echoes_names demo_world demo_class_words
           demo_abbreviations "" demo_row_fail 0%nat demo_verdict_fail
           3%nat).
  - intros a b c d e f. exists "no API key". reflexivity.
  - vm_compute. reflexivity.
  - reflexivity.
Defined.

(** X20: a row with status PASS never reaches the suggestion call or the
    rules file: two worlds that agree on the random draws, the printers
    and the sample call give the same result for it. *)
Theorem pass_row_ignores_advisor w w' class_words abbreviations
    openai_api_key row k :
  random_tape w = random_tape w' →
  render_fixed w = render_fixed w' →
  render_past_date w = render_past_date w' →
  sample_reply w = sample_reply w' →
  row_status class_words abbreviations row = PASS →
  validate_row w class_words abbreviations openai_api_key row k
  = validate_row w' class_words abbreviations openai_api_key row k.
Proof.
  intros Htape Hfixed Hdate Hreply Hst.
  unfold row_status, row_failure_reasons in Hst. unfold validate_row.
  cbv [mbind M_bind mret M_ret lift].
  rewrite (generate_sample_data_ext w openai_api_key w' _ _ _ _ _ k
             Htape Hfixed Hdate Hreply).
  destruct (generate_sample_data _ _ _ _ _ _ _ k) as [[samples k1]|];
    [|reflexivity].
  now rewrite Hst.
Qed.

Lemma pass_row_ignores_advisor_witness :
  validate_row demo_world demo_class_words demo_abbreviations ""
    demo_row_pass 0%nat
  = validate_row demo_world_no_rules demo_class_words demo_abbreviations ""
      demo_row_pass 0%nat.
Proof.
  apply (pass_row_ignores_advisor demo_world demo_world_no_rules
           demo_class_words demo_abbreviations "" demo_row_pass 0%nat);
    reflexivity.
Defined.

Lemma capitalization_issue_cases val :
  (highlight_incorrect_capitalization val).2 = ""
  ∨ (highlight_incorrect_capitalization val).2
    = "Capitalization issue in English Name.".
Proof.
  unfold highlight_incorrect_capitalization.
  destruct (String.eqb _ _); [now left|].
  destruct (bool_decide _); [now right | now left].
Qed.

(** X21: on a row that fails on the table name only, the notes show the
    table failure reason when the English name is not flagged; when it is
    flagged, the notes are the capitalisation note alone, behind a space,
    and the table failure reason is not shown. *)
Theorem table_reason_hidden_by_capitalization_note w class_words
    abbreviations openai_api_key row k v k' :
  validate_row w class_words abbreviations openai_api_key row k = Ok (v, k')
  → table_valid (table_name_of row) = false
  → row_failure_reasons class_words abbreviations row = []
  → v_validation_status v = FAIL
    ∧ v_notes v
      = if decide ((highlight_incorrect_capitalization
                      (english_name1_of row)).2 = "")
        then "Table name must start with 'T' and end with {'FACT','DIM','STG','RPTNG'}."
        else " Capitalization issue in English Name.".
Proof.
  intros Hrun Htable Hreasons.
  apply validate_row_Ok in Hrun as (Hst & Hnotes & _).
  assert (row_status class_words abbreviations row = FAIL) as Hfail
    by (apply row_status_fail_iff; now left).
  split; [congruence|].
  rewrite Hnotes, Hfail, Hreasons. unfold table_failure_reason.
  rewrite Htable. cbn [join notes_of].
  destruct (capitalization_issue_cases (english_name1_of row)) as [-> | ->];
    reflexivity.
Qed.

Lemma table_reason_hidden_by_capitalization_note_witness :
  match validate_row demo_world demo_class_words demo_abbreviations ""
          demo_row_table_only 0%nat with
  | Ok (v, _) =>
      v_validation_status v = FAIL
      ∧ v_notes v = " Capitalization issue in English Name."
  | Raise _ => False
  end.
Proof.
  destruct (validate_row demo_world demo_class_words demo_abbreviations ""
              demo_row_table_only 0%nat) as [[v k']|e] eqn:Hrun.
  - apply (table_reason_hidden_by_capitalization_note demo_world
             demo_class_words demo_abbreviations "" demo_row_table_only
             0%nat v k' Hrun); vm_compute; reflexivity.
  - vm_compute in Hrun. discriminate Hrun.
Defined.

(** X22: when no rule applies and the OpenAI call answers with one or two
    samples, the row raises [IndexError] (on a FAIL row, provided the
    rules file can be read). *)
Theorem short_reply_raises_IndexError w class_words abbreviations
    openai_api_key row k samples :
  date_rule (column_name_of row) = false →
  id_rule (column_name_of row) = false →
  price_rule (column_name_of row) = false →
  decimal_rule (data_type_of row) = false →
  integer_rule (data_type_of row) = false →
  sample_reply w (column_name_of row) (description_of row)
    (precision_of row) (scale_of row) = Answer samples →
  (0 < length samples < 3)%nat →
  row_status class_words abbreviations row = PASS
  ∨ is_Some (domain_rules_file w) →
  validate_row w class_words abbreviations openai_api_key row k
  = Raise IndexError.
Proof.
  intros Hdate Hid Hprice Hdec Hint Hreply Hlen Hst.
  unfold validate_row. cbv [mbind M_bind mret M_ret lift].
  rewrite (generate_sample_data_fallback w _ _ _ _ _ _ k
             Hdate Hid Hprice Hdec Hint), Hreply.
  unfold row_status, row_failure_reasons in Hst.
  destruct samples as [|x [|y [|z rest]]]; simpl in Hlen; try lia.
  - destruct (validation_status _ _); [reflexivity|].
    destruct Hst as [Hst | [rules Hrules]]; [discriminate|].
    unfold load_domain_rules. now rewrite Hrules.
  - destruct (validation_status _ _); [reflexivity|].
    destruct Hst as [Hst | [rules Hrules]]; [discriminate|].
    unfold load_domain_rules. now rewrite Hrules.
Qed.

Lemma short_reply_raises_IndexError_witness :
  validate_row demo_world_short_reply demo_class_words demo_abbreviations ""
    demo_row_name 0%nat = Raise IndexError.
Proof.
  apply (short_reply_raises_IndexError demo_world_short_reply
           demo_class_words demo_abbreviations "" demo_row_name 0%nat
           ["Smith"; "Jones"]); try reflexivity.
  - simpl. lia.
  - right. eexists. reflexivity.
Defined.

Lemma class_word_type_map_lookup c types :
  class_word_type_map !! c = Some types →
  c ∈ known_class_words ∧ ∀ t, t ∈ types → t ∈ known_type_names.
Proof.
  unfold class_word_type_map. intros H%elem_of_list_to_map_2.
  unfold known_class_words, known_type_names.
  repeat (apply elem_of_cons in H as [[= -> ->] | H];
          [split; [rewrite !elem_of_cons; auto 12
                  | intros t; rewrite !elem_of_cons; intuition auto 16]|]).
  by apply not_elem_of_nil in H.
Qed.

(** X23: a row with status PASS has a column name whose first three
    characters are one of the ten class words of the table, and a data
    type that is, letter for letter, one of the fifteen type names of the
    table: a type written with a length or a precision never passes. *)
Theorem pass_row_class_word_and_type class_words abbreviations row :
  row_status class_words abbreviations row = PASS →
  take 3 (column_name_of row) ∈ known_class_words
  ∧ data_type_of row ∈ known_type_names.
Proof.
  intros (_ & Hcw & _)%row_status_pass_iff.
  apply validate_class_word_status in Hcw.
  destruct (class_word_type_map !! take 3 (column_name_of row))
    as [types|] eqn:Hkey; [|by apply not_elem_of_nil in Hcw].
  destruct (class_word_type_map_lookup _ _ Hkey) as [Hword Htypes].
  split; [exact Hword | now apply Htypes].
Qed.

Lemma pass_row_class_word_and_type_witness :
  take 3 (column_name_of demo_row_pass) ∈ known_class_words
  ∧ data_type_of demo_row_pass ∈ known_type_names.
Proof.
  apply (pass_row_class_word_and_type demo_class_words demo_abbreviations
           demo_row_pass). vm_compute. reflexivity.
Defined.

(** X24: a record of the report, read back as a row, is validated to the
    status it has: the table name, the column name and the data type of a
    verdict are already in normal form, and its English name is already
    stripped. *)
Theorem report_row_keeps_status w class_words abbreviations openai_api_key
    row k v k' :
  validate_row w class_words abbreviations openai_api_key row k = Ok (v, k')
  → row_status class_words abbreviations (row_of_verdict v)
    = v_validation_status v
    ∧ table_name_of (row_of_verdict v) = v_table_name v
    ∧ column_name_of (row_of_verdict v) = v_column_name v
    ∧ data_type_of (row_of_verdict v) = v_data_type v
    ∧ english_name1_of (row_of_verdict v) = v_english_name v.
Proof.
  intros Hrun.
  pose proof (validate_row_Ok _ _ _ _ _ _ _ _ Hrun) as [Hst _].
  apply validate_row_echo in Hrun as [(Ht & Hc & He & Hd & _) _].
  assert (table_name_of (row_of_verdict v) = table_name_of row) as Ht'.
  { unfold table_name_of at 1. cbn [row_of_verdict cell_table_name].
    rewrite Ht. apply upper_strip_idemp. }
  assert (column_name_of (row_of_verdict v) = column_name_of row) as Hc'.
  { unfold column_name_of at 1. cbn [row_of_verdict cell_column_name].
    rewrite Hc. apply upper_strip_idemp. }
  assert (data_type_of (row_of_verdict v) = data_type_of row) as Hd'.
  { unfold data_type_of at 1. cbn [row_of_verdict cell_data_type].
    rewrite Hd. apply upper_strip_idemp. }
  assert (english_name1_of (row_of_verdict v) = english_name1_of row) as He1.
  { unfold english_name1_of at 1. cbn [row_of_verdict cell_english_name].
    rewrite He. apply strip_idemp. }
  assert (english_name_of (row_of_verdict v) = english_name_of row) as He'.
  { unfold english_name_of. fold (english_name1_of (row_of_verdict v)).
    now rewrite He1. }
  split; [|repeat split; congruence].
  rewrite Hst. unfold row_status, row_failure_reasons.
  now rewrite Ht', Hc', Hd', He'.
Qed.

Lemma report_row_keeps_status_witness :
  row_status demo_class_words demo_abbreviations
    (row_of_verdict demo_verdict_fail) = FAIL.
Proof.
  apply (report_row_keeps_status demo_world demo_class_words
           demo_abbreviations "" demo_row_fail 0%nat demo_verdict_fail 3%nat).
  vm_compute. reflexivity.
Defined.

(** * Properties of the reference tables and of the report view *)

Lemma normalize_cell_idemp x : normalize_cell (normalize_cell x) = normalize_cell x.
Proof.
  destruct x; try reflexivity. simpl. now rewrite upper_strip_idemp.
Qed.

Lemma normalize_frame_idemp (df : list (list pyval)) :
  map (map normalize_cell) (map (map normalize_cell) df)
  = map (map normalize_cell) df.
Proof.
  rewrite map_map. apply map_ext. intros cells. rewrite map_map.
  apply map_ext. apply normalize_cell_idemp.
Qed.

Lemma normalize_frame_cells (df : list (list pyval)) cells s :
  cells ∈ map (map normalize_cell) df → VStr s ∈ cells →
  upper (strip s) = s.
Proof.
  intros (raw & -> & _)%list_elem_of_fmap (x & Hx & _)%list_elem_of_fmap.
  destruct x; try discriminate Hx. simpl in Hx. injection Hx as ->.
  apply upper_strip_idemp.
Qed.

(** X25: in a table loaded by [load_abbreviations] or [load_class_words]
    every string cell is stripped and upper-cased, the normal form the
    engine gives to column names, so that loading a loaded table again
    changes nothing; without an upload, or when reading fails, the table
    is empty. *)
Theorem loaded_tables_are_normalised
    (uploaded_file : option (reply (list (list pyval)))) :
  load_abbreviations (Some (Answer (load_abbreviations uploaded_file)))
  = load_abbreviations uploaded_file
  ∧ load_class_words (Some (Answer (load_class_words uploaded_file)))
    = load_class_words uploaded_file
  ∧ (∀ cells s,
       cells ∈ load_abbreviations uploaded_file → VStr s ∈ cells →
       upper (strip s) = s)
  ∧ (∀ cells s,
       cells ∈ load_class_words uploaded_file → VStr s ∈ cells →
       upper (strip s) = s)
  ∧ (∀ msg, load_abbreviations (Some (Failure msg)) = []
            ∧ load_class_words (Some (Failure msg)) = [])
  ∧ load_abbreviations None = [] ∧ load_class_words None = [].
Proof.
  assert (∀ cells (s : string),
            cells ∈ (@nil (list pyval)) → VStr s ∈ cells →
            upper (strip s) = s) as Hnil
    by (intros cells s Hcells; by apply not_elem_of_nil in Hcells).
  destruct uploaded_file as [[df|msg]|]; simpl;
    (split; [try reflexivity; apply normalize_frame_idemp|]);
    (split; [try reflexivity; apply normalize_frame_idemp|]);
    (split; [exact Hnil || apply normalize_frame_cells|]);
    (split; [exact Hnil || apply normalize_frame_cells|]);
    (split; [intros msg'; split; reflexivity|]);
    split; reflexivity.
Qed.

Lemma loaded_tables_are_normalised_witness :
  load_abbreviations (Some (Answer [[VStr " order "; VStr "ord"]]))
  = [[VStr "ORDER"; VStr "ORD"]]
  ∧ upper (strip "ORDER") = "ORDER".
Proof.
  split; [reflexivity|].
  apply (loaded_tables_are_normalised
           (Some (Answer [[VStr " order "; VStr "ord"]])) : _ ∧ _ ∧ _ ∧ _)
    with (cells := [VStr "ORDER"; VStr "ORD"]).
  - vm_compute. apply list_elem_of_here.
  - apply list_elem_of_here.
Defined.

Lemma abbreviations_dict_later (pairs : list (string * string))
    (d : gmap string string) name :
  name ∉ pairs.*1 →
  fold_left (λ d '(name, abbr), <[name := abbr]> d) pairs d !! name
  = d !! name.
Proof.
  revert d. induction pairs as [|[n a] pairs IH]; intros d Hout;
    [reflexivity|].
  cbn [fold_left]. rewrite fmap_cons in Hout.
  apply not_elem_of_cons in Hout as [Hne Hout].
  rewrite IH by exact Hout. now apply lookup_insert_ne.
Qed.

(** X26: in the dictionary [main] builds from the abbreviation table, a
    NAME maps to the ABBR of the last row that has it; that NAME and that
    ABBR are approved terms of every column check. *)
Theorem last_abbreviation_row_wins (before after : list (string * string))
    name abbr english_name class_words :
  name ∉ after.*1 →
  let d := abbreviations_dict (before ++ (name, abbr) :: after) in
  d !! name = Some abbr
  ∧ name ∈ approved_terms d english_name class_words
  ∧ abbr ∈ approved_terms d english_name class_words.
Proof.
  intros Hlast. cbv zeta.
  assert (abbreviations_dict (before ++ (name, abbr) :: after) !! name
          = Some abbr) as Hlookup.
  { unfold abbreviations_dict. rewrite fold_left_app. cbn [fold_left].
    rewrite abbreviations_dict_later by exact Hlast.
    apply lookup_insert_eq. }
  split; [exact Hlookup|]. rewrite !elem_of_approved_terms. split.
  - left. now exists abbr.
  - right; left. now exists name.
Qed.

Lemma last_abbreviation_row_wins_witness :
  abbreviations_dict
    ([("ORDER", "ODR")] ++ ("ORDER", "ORD") :: [("SALES", "SLS")])
  !! "ORDER" = Some "ORD".
Proof.
  apply (last_abbreviation_row_wins [("ORDER", "ODR")] [("SALES", "SLS")]
           "ORDER" "ORD" "" []).
  vm_compute. intros H. apply list_elem_of_singleton in H. discriminate H.
Defined.

Lemma filter_first {A} (P : A → Prop) `{!∀ x, Decision (P x)} (l : list A)
    x rest :
  filter P l = x :: rest →
  P x ∧ ∃ before after,
          l = before ++ x :: after ∧ ∀ y, y ∈ before → ¬ P y.
Proof.
  induction l as [|a l IH]; [discriminate|].
  rewrite filter_cons. destruct (decide (P a)) as [Ha | Ha].
  - intros [= -> Hrest]. split; [exact Ha|].
    exists [], l. split; [reflexivity|].
    intros y Hy. by apply not_elem_of_nil in Hy.
  - intros Hf. destruct (IH Hf) as (Hx & before & after & -> & Hbefore).
    split; [exact Hx|]. exists (a :: before), after.
    split; [reflexivity|].
    intros y [-> | Hy]%elem_of_cons; [exact Ha | now apply Hbefore].
Qed.

(** X27: for every label the select box offers, the details shown are
    those of a record with status FAIL and that label, namely the first
    such record of the results; a later failed record with the same table
    and column name is never shown. *)
Theorem selected_row_is_first_match (df_results : list Verdict)
    (selected_record : string) :
  selected_record ∈ failed_options df_results →
  ∃ v before after,
    selected_row df_results selected_record = Ok v
    ∧ v_validation_status v = FAIL
    ∧ record_label v = selected_record
    ∧ df_results = before ++ v :: after
    ∧ ∀ u, u ∈ before →
           ¬ (record_label u = selected_record
              ∧ v_validation_status u = FAIL).
Proof.
  unfold failed_options, selected_row, failed_records.
  intros (u & Hlabel & Hu)%list_elem_of_fmap.
  rewrite list_filter_filter.
  apply list_elem_of_filter in Hu as [Hfail Hin].
  assert (u ∈ filter (λ x, record_label x = selected_record
                           ∧ v_validation_status x = FAIL) df_results)
    as Hmatch by (apply list_elem_of_filter; auto).
  destruct (filter (λ x, record_label x = selected_record
                         ∧ v_validation_status x = FAIL) df_results)
    as [|v rest] eqn:Hf; [by apply not_elem_of_nil in Hmatch|].
  apply filter_first in Hf
    as ([Hv Hvfail] & before & after & Hsplit & Hbefore).
  exists v, before, after. auto.
Qed.

Lemma selected_row_is_first_match_witness :
  ∃ v before after,
    selected_row [demo_verdict_pass; demo_verdict_fail; demo_verdict_fail]
      "SLS_ORDER_FACT - ORD_XYZ_AMT" = Ok v
    ∧ v_validation_status v = FAIL
    ∧ record_label v = "SLS_ORDER_FACT - ORD_XYZ_AMT"
    ∧ [demo_verdict_pass; demo_verdict_fail; demo_verdict_fail]
      = before ++ v :: after
    ∧ ∀ u, u ∈ before →
           ¬ (record_label u = "SLS_ORDER_FACT - ORD_XYZ_AMT"
              ∧ v_validation_status u = FAIL).
Proof.
  apply (selected_row_is_first_match
           [demo_verdict_pass; demo_verdict_fail; demo_verdict_fail]
           "SLS_ORDER_FACT - ORD_XYZ_AMT").
  vm_compute. apply list_elem_of_here.
Defined.

(** * The capitalisation rule on arbitrary code points *)

Module UnicodeFacts.

Lemma of_string_app a b : Unicode.of_string (a +:+ b) = Unicode.of_string a ++ Unicode.of_string b.
Proof.
  induction a as [|c a IH]; [reflexivity|].
  rewrite app_cons. simpl. now rewrite IH.
Qed.

Lemma N_of_ascii_inj a b : N_of_ascii a = N_of_ascii b → a = b.
Proof.
  intros H. rewrite <- (ascii_N_embedding a), <- (ascii_N_embedding b).
  now rewrite H.
Qed.

Global Instance of_string_inj : Inj (=) (=) Unicode.of_string.
Proof.
  intros a. induction a as [|c a IH]; intros [|d b] H; try discriminate H.
  - reflexivity.
  - simpl in H. injection H as Hc Hr.
    apply N_of_ascii_inj in Hc as ->. now rewrite (IH b Hr).
Qed.

Lemma of_string_nil s : Unicode.of_string s = [] ↔ s = "".
Proof. destruct s; split; (discriminate || reflexivity). Qed.

Lemma ascii_text_cons c s :
  ascii_text (String c s) ↔ (N_of_ascii c < 128)%N ∧ ascii_text s.
Proof.
  unfold ascii_text. simpl. rewrite andb_true_iff, N.ltb_lt. reflexivity.
Qed.

(** Every text of ASCII code points is the image of a text of the ASCII
    model. *)
Lemma ascii_only_of_string u :
  Unicode.ascii_only u → ∃ s, ascii_text s ∧ u = Unicode.of_string s.
Proof.
  induction u as [|c u IH]; intros H.
  - now exists "".
  - apply Forall_cons in H as [Hc Hu]. destruct (IH Hu) as (s & Hs & ->).
    exists (String (ascii_of_N c) s).
    assert (N_of_ascii (ascii_of_N c) = c) as Hemb
      by (apply N_ascii_embedding; lia).
    split; [apply ascii_text_cons; now rewrite Hemb|].
    simpl. now rewrite Hemb.
Qed.

Lemma of_string_ascii_only s : ascii_text s → Unicode.ascii_only (Unicode.of_string s).
Proof.
  induction s as [|c s IH]; [constructor|].
  intros [Hc Hs]%ascii_text_cons. constructor; [exact Hc | now apply IH].
Qed.

(** The ASCII model keeps text on the ASCII range. *)
Lemma to_lower_ascii c :
  (N_of_ascii c <? 128)%N = true → (N_of_ascii (to_lower c) <? 128)%N = true.
Proof. by_cases_on_char c. Qed.

Lemma to_upper_ascii c :
  (N_of_ascii c <? 128)%N = true → (N_of_ascii (to_upper c) <? 128)%N = true.
Proof. by_cases_on_char c. Qed.

Lemma smap_ascii_text f s :
  (∀ c, (N_of_ascii c <? 128)%N = true → (N_of_ascii (f c) <? 128)%N = true)
  → ascii_text s → ascii_text (smap f s).
Proof.
  intros Hf. unfold ascii_text. induction s as [|c s IH]; [reflexivity|].
  simpl. intros [Hc Hs]%andb_true_iff. now rewrite (Hf c Hc), IH.
Qed.

Lemma lower_ascii_text s : ascii_text s → ascii_text (lower s).
Proof. apply smap_ascii_text, to_lower_ascii. Qed.

Lemma upper_ascii_text s : ascii_text s → ascii_text (upper s).
Proof. apply smap_ascii_text, to_upper_ascii. Qed.

Lemma capitalize_ascii_text s : ascii_text s → ascii_text (capitalize s).
Proof.
  destruct s as [|c s]; [trivial|].
  intros [Hc Hs]%ascii_text_cons. apply ascii_text_cons. split.
  - apply N.ltb_lt, to_upper_ascii, N.ltb_lt, Hc.
  - now apply lower_ascii_text.
Qed.

Lemma push_word_ascii_text w ws :
  ascii_text w → Forall ascii_text ws → Forall ascii_text (push_word w ws).
Proof. intros Hw Hws. destruct w; [exact Hws | now constructor]. Qed.

Lemma words_from_ascii_text s :
  ascii_text s →
  ascii_text (words_from s).1 ∧ Forall ascii_text (words_from s).2.
Proof.
  induction s as [|c s IH]; [split; [reflexivity | constructor]|].
  intros [Hc Hs]%ascii_text_cons. destruct (IH Hs) as [Hw Hws]. simpl.
  destruct (words_from s) as [w ws]. simpl in Hw, Hws.
  destruct (is_space c); simpl.
  - split; [reflexivity | now apply push_word_ascii_text].
  - split; [now apply ascii_text_cons | exact Hws].
Qed.

Lemma split_ws_ascii_text s : ascii_text s → Forall ascii_text (split_ws s).
Proof.
  intros [Hw Hws]%words_from_ascii_text. unfold split_ws.
  destruct (words_from s) as [w ws]. now apply push_word_ascii_text.
Qed.

Lemma app_ascii_text a b : ascii_text a → ascii_text b → ascii_text (a +:+ b).
Proof.
  intros Ha Hb. induction a as [|c a IH]; [exact Hb|].
  apply ascii_text_cons in Ha as [Hc Ha]. rewrite app_cons.
  apply ascii_text_cons. auto.
Qed.

Lemma join_ascii_text l : Forall ascii_text l → ascii_text (join " " l).
Proof.
  induction l as [|x l IH]; [reflexivity|].
  intros [Hx Hl]%Forall_cons. destruct l as [|y l]; [exact Hx|].
  rewrite join_cons2. apply app_ascii_text; [exact Hx|].
  apply app_ascii_text; [reflexivity | now apply IH].
Qed.

Lemma capitalize_word_ascii_text i w :
  ascii_text w → ascii_text (capitalize_word i w).
Proof.
  intros Hw. unfold capitalize_word.
  destruct (_ || _); [now apply capitalize_ascii_text
                     | now apply lower_ascii_text].
Qed.

Lemma capitalize_str_ascii_text s : ascii_text s → ascii_text (capitalize_str s).
Proof.
  intros Hs. unfold capitalize_str. apply join_ascii_text.
  apply imap_Forall; [apply capitalize_word_ascii_text|].
  now apply split_ws_ascii_text.
Qed.

Section Refinement.
Variable db : Unicode.CaseTables.
Hypothesis Hrows : Unicode.ascii_rows db = true.

Lemma ascii_row (a : ascii) :
  (N_of_ascii a < 128)%N →
  Unicode.to_lower_full db (N_of_ascii a) = [N_of_ascii (to_lower a)]
  ∧ Unicode.to_upper_full db (N_of_ascii a) = [N_of_ascii (to_upper a)]
  ∧ Unicode.to_title_full db (N_of_ascii a) = [N_of_ascii (to_upper a)]
  ∧ Unicode.is_whitespace db (N_of_ascii a) = is_space a.
Proof.
  intros Ha. unfold Unicode.ascii_rows in Hrows.
  rewrite forallb_forall in Hrows.
  specialize (Hrows (N.to_nat (N_of_ascii a))).
  rewrite N2Nat.id, ascii_N_embedding in Hrows.
  assert (In (N.to_nat (N_of_ascii a)) (seq 0 128)) as Hin
    by (apply in_seq; lia).
  apply Hrows in Hin.
  rewrite !andb_true_iff, !bool_decide_eq_true, Bool.eqb_true_iff in Hin.
  tauto.
Qed.

Lemma lower_from_of_string before s :
  ascii_text s →
  Unicode.lower_from db before (Unicode.of_string s)
  = Unicode.of_string (lower s).
Proof.
  revert before. induction s as [|c s IH]; intros before; [reflexivity|].
  intros [Hc Hs]%ascii_text_cons. cbn [Unicode.of_string Unicode.lower_from].
  destruct (N.eqb_spec (N_of_ascii c) 931) as [Heq | _]; [lia|].
  destruct (ascii_row c Hc) as (-> & _). rewrite (IH _ Hs). reflexivity.
Qed.

Lemma lower_of_string s :
  ascii_text s →
  Unicode.lower db (Unicode.of_string s) = Unicode.of_string (lower s).
Proof. apply lower_from_of_string. Qed.

Lemma upper_of_string s :
  ascii_text s →
  Unicode.upper db (Unicode.of_string s) = Unicode.of_string (upper s).
Proof.
  unfold Unicode.upper. induction s as [|c s IH]; [reflexivity|].
  intros [Hc Hs]%ascii_text_cons. cbn [Unicode.of_string flat_map].
  destruct (ascii_row c Hc) as (_ & -> & _). now rewrite (IH Hs).
Qed.

Lemma capitalize_of_string s :
  ascii_text s →
  Unicode.capitalize db (Unicode.of_string s)
  = Unicode.of_string (capitalize s).
Proof.
  destruct s as [|c s]; [reflexivity|].
  intros [Hc Hs]%ascii_text_cons.
  cbn [Unicode.of_string Unicode.capitalize capitalize].
  destruct (ascii_row c Hc) as (_ & _ & -> & _).
  now rewrite (lower_from_of_string _ s Hs).
Qed.

Lemma push_word_of_string w ws :
  Unicode.push_word (Unicode.of_string w) (Unicode.of_string <$> ws)
  = Unicode.of_string <$> push_word w ws.
Proof. now destruct w. Qed.

Lemma words_from_of_string s :
  ascii_text s →
  Unicode.words_from db (Unicode.of_string s)
  = (Unicode.of_string (words_from s).1,
     Unicode.of_string <$> (words_from s).2).
Proof.
  induction s as [|c s IH]; [reflexivity|].
  intros [Hc Hs]%ascii_text_cons.
  cbn [Unicode.of_string Unicode.words_from words_from].
  rewrite (IH Hs). destruct (ascii_row c Hc) as (_ & _ & _ & ->).
  destruct (words_from s) as [w ws]. cbn [fst snd].
  destruct (is_space c); cbn [fst snd]; [|reflexivity].
  now rewrite push_word_of_string.
Qed.

Lemma split_ws_of_string s :
  ascii_text s →
  Unicode.split_ws db (Unicode.of_string s)
  = Unicode.of_string <$> split_ws s.
Proof.
  intros Hs. unfold Unicode.split_ws, split_ws.
  rewrite (words_from_of_string s Hs).
  destruct (words_from s) as [w ws]. apply push_word_of_string.
Qed.

Lemma join_of_string sep l :
  Unicode.join (Unicode.of_string sep) (Unicode.of_string <$> l)
  = Unicode.of_string (join sep l).
Proof.
  induction l as [|x l IH]; [reflexivity|]. destruct l as [|y l];
    [reflexivity|].
  rewrite join_cons2, !of_string_app, <- IH. reflexivity.
Qed.

Lemma capitalize_word_of_string i w :
  ascii_text w →
  Unicode.capitalize_word db i (Unicode.of_string w)
  = Unicode.of_string (capitalize_word i w).
Proof.
  intros Hw. unfold Unicode.capitalize_word, capitalize_word.
  rewrite (lower_of_string w Hw), (capitalize_of_string w Hw).
  rewrite (bool_decide_ext
             (Unicode.of_string (lower w) ∉ Unicode.of_string <$> allowed_words)
             (lower w ∉ allowed_words)).
  - now destruct (_ || _).
  - split; intros Hout Hin; apply Hout.
    + now apply list_elem_of_fmap_2.
    + apply list_elem_of_fmap in Hin as (x & Hx & Hin).
      now apply (inj Unicode.of_string) in Hx as ->.
Qed.

Lemma imap_of_string (f : nat → list N → list N) (g : nat → string → string)
    (l : list string) :
  (∀ i w, ascii_text w → f i (Unicode.of_string w) = Unicode.of_string (g i w))
  → Forall ascii_text l →
  imap f (Unicode.of_string <$> l) = Unicode.of_string <$> imap g l.
Proof.
  revert f g. induction l as [|x l IH]; intros f g Hfg Hl; [reflexivity|].
  apply Forall_cons in Hl as [Hx Hl].
  rewrite fmap_cons, !imap_cons, fmap_cons, (Hfg 0%nat x Hx). f_equal.
  apply IH; [|exact Hl]. intros i w. apply Hfg.
Qed.

(** On ASCII text the rule on code points is the rule of the ASCII model. *)
Lemma capitalize_english_name_of_string s :
  ascii_text s →
  Unicode.capitalize_english_name db (Unicode.of_string s)
  = Unicode.of_string (capitalize_str s).
Proof.
  intros Hs. unfold Unicode.capitalize_english_name, capitalize_str.
  rewrite (split_ws_of_string s Hs).
  rewrite (imap_of_string _ capitalize_word)
    by (apply capitalize_word_of_string || now apply split_ws_ascii_text).
  apply join_of_string.
Qed.

Lemma unicode_capitalize_idemp u :
  Unicode.ascii_only u →
  Unicode.capitalize_english_name db (Unicode.capitalize_english_name db u)
  = Unicode.capitalize_english_name db u.
Proof.
  intros (s & Hs & ->)%ascii_only_of_string.
  rewrite (capitalize_english_name_of_string s Hs).
  rewrite capitalize_english_name_of_string
    by now apply capitalize_str_ascii_text.
  now rewrite capitalize_str_idemp.
Qed.

Lemma unicode_capitalize_upper u :
  Unicode.ascii_only u →
  Unicode.capitalize_english_name db (Unicode.upper db u)
  = Unicode.capitalize_english_name db u.
Proof.
  intros (s & Hs & ->)%ascii_only_of_string.
  rewrite (upper_of_string s Hs).
  rewrite !capitalize_english_name_of_string
    by (assumption || now apply upper_ascii_text).
  f_equal. unfold capitalize_str. rewrite split_ws_upper. f_equal.
  change (map upper (split_ws s)) with (upper <$> split_ws s).
  rewrite imap_fmap. apply imap_ext. intros i word _.
  apply capitalize_word_upper.
Qed.

End Refinement.

End UnicodeFacts.




(** X5: for a name of ASCII characters the canonical form does not depend
    on the case the name comes in: the upper-cased name has the same
    canonical form. *)
Theorem capitalize_english_name_ignores_case_on_ascii
    (db : Unicode.CaseTables) (s : list N) :
  Unicode.ascii_rows db = true →
  Unicode.ascii_only s →
  Unicode.capitalize_english_name db (Unicode.upper db s)
  = Unicode.capitalize_english_name db s.
Proof. intros Hrows Hs. now apply UnicodeFacts.unicode_capitalize_upper. Qed.

Lemma capitalize_english_name_ignores_case_on_ascii_witness :
  Unicode.capitalize_english_name Unicode.cpython_rows
    (Unicode.upper Unicode.cpython_rows (Unicode.of_string "Date of birth"))
  = Unicode.capitalize_english_name Unicode.cpython_rows
      (Unicode.of_string "Date of birth").
Proof.
  apply (capitalize_english_name_ignores_case_on_ascii Unicode.cpython_rows
           (Unicode.of_string "Date of birth")).
  - vm_compute. reflexivity.
  - apply UnicodeFacts.of_string_ascii_only. vm_compute. reflexivity.
Defined.

(** X7: the canonical form of a name of ASCII characters is never flagged:
    [highlight_incorrect_capitalization] answers with the empty style and
    the empty note on it. *)
Theorem canonical_name_not_flagged_on_ascii
    (db : Unicode.CaseTables) (s : list N) :
  Unicode.ascii_rows db = true →
  Unicode.ascii_only s →
  Unicode.highlight_incorrect_capitalization db
    (Unicode.capitalize_english_name db s) = ("", "").
Proof.
  intros Hrows Hs. unfold Unicode.highlight_incorrect_capitalization.
  destruct (bool_decide (Unicode.strip db _ = [])); [reflexivity|].
  rewrite (UnicodeFacts.unicode_capitalize_idemp db Hrows s Hs).
  now rewrite bool_decide_eq_false_2 by tauto.
Qed.

Lemma canonical_name_not_flagged_on_ascii_witness :
  Unicode.highlight_incorrect_capitalization Unicode.cpython_rows
    (Unicode.capitalize_english_name Unicode.cpython_rows
       (Unicode.of_string "date  OF bIRTH")) = ("", "").
Proof.
  apply (canonical_name_not_flagged_on_ascii Unicode.cpython_rows
           (Unicode.of_string "date  OF bIRTH")).
  - vm_compute. reflexivity.
  - apply UnicodeFacts.of_string_ascii_only. vm_compute. reflexivity.
Defined.

(** C1, at the row with the column name AMT, 7 followed by a newline, ORD
    (table T_SLS_ORD_FACT, type DECIMAL, abbreviation ORD, class word
    AMT): the table-name check and the class-word check pass and the
    status is PASS, in the verdict too, although the part made of 7 and a
    newline is a part of the column name that is neither approved nor made
    of digits only. *)
Theorem status_pass_with_unapproved_part :
  let row := demo_row_newline in
  let part := "7" +:+ String newline "" in
  row_status demo_class_words demo_abbreviations row = PASS
  ∧ (∃ v k',
       validate_row demo_world demo_class_words demo_abbreviations "" row
         0%nat = Ok (v, k')
       ∧ v_validation_status v = PASS)
  ∧ table_valid (table_name_of row) = true
  ∧ cw_status (validate_class_word (column_name_of row) (data_type_of row)
                 (english_name_of row) class_word_type_map) = PASS
  ∧ part ∈ split_on "_" (column_name_of row)
  ∧ ¬ digits_only part
  ∧ part ∉ approved_terms demo_abbreviations (english_name_of row)
             demo_class_words.
Proof.
  cbv zeta.
  assert (row_status demo_class_words demo_abbreviations demo_row_newline
          = PASS) as Hpass by (vm_compute; reflexivity).
  split; [exact Hpass|]. split.
  { destruct (validate_row demo_world demo_class_words demo_abbreviations ""
                demo_row_newline 0%nat) as [[v k']|e] eqn:Hrun.
    - exists v, k'. split; [reflexivity|].
      apply validate_row_Ok in Hrun as [Hst _]. congruence.
    - vm_compute in Hrun. discriminate Hrun. }
  split; [vm_compute; reflexivity|]. split; [vm_compute; reflexivity|].
  split; [|split].
  - vm_compute. apply list_elem_of_further, list_elem_of_here.
  - intros [_ H]. vm_compute in H. discriminate.
  - apply (bool_decide_unpack _). vm_compute. exact I.
Qed.
